(** * HolodeckPythonBinding: the environment interface

    A shallow embedding of [holodeck/environments.py] (class
    [HolodeckEnvironment]) and the properties of its reset / step / tick
    protocol, command queue and state aggregation.

    The Python object is a record that is threaded through every method by a
    state-and-exception monad; the simulator process on the other side of the
    shared memory, and what the agent factory decides for an agent, are
    parameters of the development. *)

From Stdlib Require Import List String Ascii ZArith QArith Bool Lia.
From Stdlib Require Import DecimalString.
Import ListNotations.

Local Open Scope string_scope.
Local Open Scope list_scope.

(** ** Python dictionaries

    A [dict] keeps its keys in insertion order and the methods below iterate
    over them, so a dictionary is an association list; assignment replaces the
    value of a key that is present and appends a new key at the end. *)

Module Dict.

Definition t (V : Type) : Type := list (string * V).

Definition empty {V : Type} : t V := [].

Fixpoint get {V : Type} (d : t V) (k : string) : option V :=
  match d with
  | [] => None
  | (k', v) :: d' => if String.eqb k k' then Some v else get d' k
  end.

Definition mem {V : Type} (k : string) (d : t V) : bool :=
  match get d k with Some _ => true | None => false end.

Fixpoint set {V : Type} (d : t V) (k : string) (v : V) : t V :=
  match d with
  | [] => [(k, v)]
  | (k', v') :: d' =>
      if String.eqb k k' then (k', v) :: d' else (k', v') :: set d' k v
  end.

Definition keys {V : Type} (d : t V) : list string := map fst d.

Definition len {V : Type} (d : t V) : nat := List.length d.

End Dict.

(** ** Python values and strings *)

(** The dynamically typed arguments the setters inspect with [isinstance].
    The methods never compute with a value that is not an [int] (the test
    comes first and the value is only printed), so a [float] is carried by
    the text Python prints for it. *)
Inductive pyval : Type :=
| PyNone
| PyBool (b : bool)
| PyInt (z : Z)
| PyFloat (repr : string)
| PyStr (s : string).

(** [isinstance(v, int)]; [bool] is a subclass of [int]. *)
Definition isinstance_int (v : pyval) : bool :=
  match v with
  | PyBool _ | PyInt _ => true
  | _ => false
  end.

(** The integer an [int] instance stands for in a comparison. *)
Definition int_value (v : pyval) : Z :=
  match v with
  | PyInt z => z
  | PyBool true => 1%Z
  | _ => 0%Z
  end.

(** [needle in s] on two strings. *)
Fixpoint str_contains (needle s : string) : bool :=
  String.prefix needle s
  || match s with
     | EmptyString => false
     | String _ s' => str_contains needle s'
     end.

Definition ascii_lower (c : ascii) : ascii :=
  let n := nat_of_ascii c in
  if (65 <=? n)%nat && (n <=? 90)%nat then ascii_of_nat (n + 32) else c.

(** [s.lower()]. *)
Fixpoint str_lower (s : string) : string :=
  match s with
  | EmptyString => EmptyString
  | String c s' => String (ascii_lower c) (str_lower s')
  end.

Definition str_in (s : string) (l : list string) : bool :=
  existsb (String.eqb s) l.

Definition Qltb (a b : Q) : bool := negb (Qle_bool b a).

(** The numbers a caller passes where a [float] is expected: a finite
    number, an infinity, or the value that is not a number. *)
Inductive pyfloat : Type :=
| Finite (q : Q)
| PosInf
| NegInf
| NaN.

Coercion Finite : Q >-> pyfloat.

(** [a < b] on two such numbers; every comparison with [NaN] is false. *)
Definition float_ltb (a b : pyfloat) : bool :=
  match a, b with
  | Finite x, Finite y => Qltb x y
  | Finite _, PosInf => true
  | NegInf, Finite _ => true
  | NegInf, PosInf => true
  | _, _ => false
  end.

(** ** Exceptions *)

Inductive exn : Type :=
| HolodeckException (msg : string)
| KeyError (key : string)
| AttributeError (attr : string)
| IndexError
| HandshakeTimeout.

(** ** Commands

    [holodeck/command.py] is not among the sources; a command is the
    constructor call of [environments.py] with its arguments. *)

Inductive Command : Type :=
| SpawnAgentCommand (location : list Q) (name : string) (agent_type : string)
| RGBCameraRateCommand (agent_name : string) (ticks_per_capture : pyval)
| DebugDrawCommand (draw_type : Z) (start stop color : list Q) (thickness : Q)
| TeleportCameraCommand (location rotation : list Q)
| RenderViewportCommand (render_viewport : bool)
| RenderQualityCommand (render_quality : Z)
| SetSensorEnabledCommand (agent_name sensor_name : string) (enabled : bool)
| CustomCommand (name : string) (num_params : list pyfloat)
    (string_params : list string)
| TeleportCommand (agent_name : string) (location rotation : option (list Q))
| SetStateCommand (agent_name : string)
    (location rotation velocity angular_velocity : list Q).

(** ** Arrays and shared memory

    Modelled from the spec: the allocator of [holodeck/holodeckclient.py] is
    not among the sources.  A sensor's array is a view of a block of shared
    memory, named by agent and sensor and of a fixed number of elements,
    which the simulator overwrites in place; [np.copy] gives an array that
    owns its data. *)

Inductive ndarray : Type :=
| View (agent sensor : string) (size : nat)
| Owned (data : list Q).

Record SharedMemory : Type := mkMem {
  RESET : bool;
  command_buffer : list Command;
  action_buffers : Dict.t (list Q);
  sensor_data : Dict.t (Dict.t (list Q))
}.

(** What the simulator has written for a sensor so far. *)
Definition block (m : SharedMemory) (agent sensor : string) : list Q :=
  match Dict.get (sensor_data m) agent with
  | Some blocks =>
      match Dict.get blocks sensor with
      | Some data => data
      | None => []
      end
  | None => []
  end.

(** A block keeps the shape it was allocated with: a view of [size]
    elements reads exactly [size] elements, zeros where the simulator has
    written nothing. *)
Definition fit (size : nat) (data : list Q) : list Q :=
  firstn size (data ++ repeat (0 # 1) size).

(** The contents of an array at a given moment of the shared memory. *)
Definition contents (m : SharedMemory) (a : ndarray) : list Q :=
  match a with
  | View agent sensor size => fit size (block m agent sensor)
  | Owned data => data
  end.

Definition np_copy (m : SharedMemory) (a : ndarray) : ndarray :=
  Owned (contents m a).

(** [_create_copy] dispatches on [isinstance(v, dict)]: a dictionary is
    copied entry by entry, anything else inside one goes through [np.copy]. *)
Class Copyable (A : Type) : Type :=
  create_copy : SharedMemory -> A -> A.

#[export] Instance Copyable_ndarray : Copyable ndarray := np_copy.

#[export] Instance Copyable_dict {V : Type} `{Copyable V} : Copyable (Dict.t V) :=
  fun m obj =>
    fold_left (fun cp kv => Dict.set cp (fst kv) (create_copy m (snd kv)))
              obj Dict.empty.

(** Reading a state structure: every array replaced by its contents. *)
Definition observe_agent (m : SharedMemory) (d : Dict.t ndarray)
  : Dict.t (list Q) :=
  map (fun kv => (fst kv, contents m (snd kv))) d.

Definition observe_all (m : SharedMemory) (d : Dict.t (Dict.t ndarray))
  : Dict.t (Dict.t (list Q)) :=
  map (fun kv => (fst kv, observe_agent m (snd kv))) d.

(** ** Agents *)

Record AgentType : Type := mkAgentType { agent_type : string }.

(** Modelled from the spec: the sensor catalog of [holodeck/sensors.py] is
    not among the sources.  A sensor is named and shaped; the shape is taken
    as its number of elements. *)
Record SensorDefinition : Type := mkSensor {
  sensor_name : string;
  sensor_size : nat
}.

Record AgentDefinition : Type := mkAgentDefinition {
  name : string;
  type : AgentType;
  sensors : list SensorDefinition
}.

(** Modelled from the spec: [holodeck/agents.py] (the agent classes and
    [AgentFactory]) is not among the sources.  An agent is a named entity
    with a mapping from sensor identifiers to shared-memory-backed buffers
    (its state dict); the methods [has_camera], [get_ticks_per_capture] and
    the two setters that [environments.py] calls read and write the three
    other fields. *)
Record Agent : Type := mkAgent {
  agent_name : string;
  agent_state_dict : Dict.t ndarray;
  camera : bool;
  ticks_per_capture : pyval;
  control_scheme : pyval
}.

(** What [AgentFactory.build_agent], which is not among the sources,
    decides for the agent of a definition and neither the spec nor
    [environments.py] tells: whether the agent has a camera, and the capture
    rate and control scheme it starts with.  These are parameters of the
    development. *)
Class AgentFactory : Type := mkAgentFactory {
  built_with_camera : AgentDefinition -> bool;
  initial_ticks_per_capture : AgentDefinition -> pyval;
  initial_control_scheme : AgentDefinition -> pyval
}.

(** Modelled from the spec: [AgentFactory.build_agent] is not among the
    sources.  The agent gets one shared-memory view per sensor of its
    definition, under the sensor's identifier and of the sensor's shape. *)
Definition build_agent {factory : AgentFactory} (d : AgentDefinition) : Agent :=
  {| agent_name := name d;
     agent_state_dict :=
       fold_left (fun sd s =>
                    Dict.set sd (sensor_name s)
                             (View (name d) (sensor_name s) (sensor_size s)))
                 (sensors d) Dict.empty;
     camera := built_with_camera d;
     ticks_per_capture := initial_ticks_per_capture d;
     control_scheme := initial_control_scheme d |}.

Definition has_camera (a : Agent) : bool := camera a.

Definition get_ticks_per_capture (a : Agent) : pyval := ticks_per_capture a.

Definition with_ticks_per_capture (v : pyval) (a : Agent) : Agent :=
  {| agent_name := agent_name a;
     agent_state_dict := agent_state_dict a;
     camera := camera a;
     ticks_per_capture := v;
     control_scheme := control_scheme a |}.

Definition with_control_scheme (v : pyval) (a : Agent) : Agent :=
  {| agent_name := agent_name a;
     agent_state_dict := agent_state_dict a;
     camera := camera a;
     ticks_per_capture := ticks_per_capture a;
     control_scheme := v |}.

(** ** The environment object *)

(** What [reset] hands back: [_get_single_state] or [_get_full_state]. *)
Inductive state_fn : Type :=
| get_single_state_fn
| get_full_state_fn.

(** A returned state structure is either the environment's own dictionary
    (reference mode: the very object, not a copy) or a dictionary built by
    [_create_copy]. *)
Inductive state_map : Type :=
| SharedStateDict
| CopiedStateDict (cp : Dict.t (Dict.t ndarray)).

Inductive agent_state : Type :=
| SharedAgentDict (agent : string)
| CopiedAgentDict (cp : Dict.t ndarray).

Inductive retval : Type :=
| RetNone
| RetFull (state : state_map)
| RetSingle (state : agent_state) (reward : option Q) (terminal : option bool).

Inductive outcome (A : Type) : Type :=
| Return (a : A)
| Raise (e : exn).

Arguments Return {A} a.
Arguments Raise {A} e.

(** The simulator process: a hidden state and what it does to the shared
    memory during its phase of the handshake; [None] when it does not answer
    within the timeout. *)
Class Simulator (Engine : Type) : Type :=
  engine_tick : Engine -> SharedMemory -> option (Engine * SharedMemory).

(** Python's [str()] on a value. *)
Class Str : Type :=
  py_str : pyval -> string.

Section Environment.

Context {Engine : Type} {simulator : Simulator Engine} {str : Str}
        {factory : AgentFactory}.

(** What the process observes from outside: lines printed, batches of
    commands flushed, and the two halves of the handshake, with the shared
    memory as the simulator finds it when it is released. *)
Inductive event : Type :=
| Printed (msg : string)
| Flushed (batch : list Command)
| Released (seen : SharedMemory)
| Acquired.

(** Modelled from the spec: [holodeck/holodeckclient.py] is not among the
    sources.  The client owns the shared memory and the handshake with the
    simulator. *)
Record HolodeckClient : Type := mkClient {
  memory : SharedMemory;
  engine : Engine
}.

Record HolodeckEnvironment : Type := mkEnv {
  _pre_start_steps : Z;
  _copy_state : bool;
  _client : HolodeckClient;
  _command_center : list Command;
  agents : Dict.t Agent;
  _state_dict : Dict.t (Dict.t ndarray);
  num_agents : nat;
  _agent : option string;
  _default_state_fn : state_fn;
  _initial_reset : bool;
  trace : list event
}.

Definition with_client (c : HolodeckClient) (e : HolodeckEnvironment) :=
  mkEnv (_pre_start_steps e) (_copy_state e) c (_command_center e) (agents e)
        (_state_dict e) (num_agents e) (_agent e) (_default_state_fn e)
        (_initial_reset e) (trace e).

Definition with_command_center (q : list Command) (e : HolodeckEnvironment) :=
  mkEnv (_pre_start_steps e) (_copy_state e) (_client e) q (agents e)
        (_state_dict e) (num_agents e) (_agent e) (_default_state_fn e)
        (_initial_reset e) (trace e).

Definition with_agents (a : Dict.t Agent) (e : HolodeckEnvironment) :=
  mkEnv (_pre_start_steps e) (_copy_state e) (_client e) (_command_center e) a
        (_state_dict e) (num_agents e) (_agent e) (_default_state_fn e)
        (_initial_reset e) (trace e).

Definition with_state_dict (s : Dict.t (Dict.t ndarray)) (e : HolodeckEnvironment) :=
  mkEnv (_pre_start_steps e) (_copy_state e) (_client e) (_command_center e)
        (agents e) s (num_agents e) (_agent e) (_default_state_fn e)
        (_initial_reset e) (trace e).

Definition with_num_agents (n : nat) (e : HolodeckEnvironment) :=
  mkEnv (_pre_start_steps e) (_copy_state e) (_client e) (_command_center e)
        (agents e) (_state_dict e) n (_agent e) (_default_state_fn e)
        (_initial_reset e) (trace e).

Definition with_agent (a : option string) (e : HolodeckEnvironment) :=
  mkEnv (_pre_start_steps e) (_copy_state e) (_client e) (_command_center e)
        (agents e) (_state_dict e) (num_agents e) a (_default_state_fn e)
        (_initial_reset e) (trace e).

Definition with_default_state_fn (f : state_fn) (e : HolodeckEnvironment) :=
  mkEnv (_pre_start_steps e) (_copy_state e) (_client e) (_command_center e)
        (agents e) (_state_dict e) (num_agents e) (_agent e) f
        (_initial_reset e) (trace e).

Definition with_initial_reset (b : bool) (e : HolodeckEnvironment) :=
  mkEnv (_pre_start_steps e) (_copy_state e) (_client e) (_command_center e)
        (agents e) (_state_dict e) (num_agents e) (_agent e)
        (_default_state_fn e) b (trace e).

Definition with_trace (t : list event) (e : HolodeckEnvironment) :=
  mkEnv (_pre_start_steps e) (_copy_state e) (_client e) (_command_center e)
        (agents e) (_state_dict e) (num_agents e) (_agent e)
        (_default_state_fn e) (_initial_reset e) t.

Definition with_memory (m : SharedMemory) (e : HolodeckEnvironment) :=
  with_client (mkClient m (engine (_client e))) e.

Definition shm (e : HolodeckEnvironment) : SharedMemory := memory (_client e).

(** *** Methods as state transformers that may raise *)

Definition M (A : Type) : Type :=
  HolodeckEnvironment -> outcome A * HolodeckEnvironment.

Definition ret {A : Type} (a : A) : M A := fun e => (Return a, e).

Definition raise {A : Type} (x : exn) : M A := fun e => (Raise x, e).

Definition bind {A B : Type} (m : M A) (k : A -> M B) : M B :=
  fun e =>
    match m e with
    | (Return a, e') => k a e'
    | (Raise x, e') => (Raise x, e')
    end.

Definition self : M HolodeckEnvironment := fun e => (Return e, e).

Definition modify (f : HolodeckEnvironment -> HolodeckEnvironment) : M unit :=
  fun e => (Return tt, f e).

Notation "x <- m ;; k" := (bind m (fun x => k))
  (at level 61, m at next level, right associativity).
Notation "m ;; k" := (bind m (fun _ => k))
  (at level 61, right associativity).

(** [for x in xs: body(x)]. *)
Fixpoint for_each {A : Type} (xs : list A) (body : A -> M unit) : M unit :=
  match xs with
  | [] => ret tt
  | x :: xs' => body x ;; for_each xs' body
  end.

(** [for _ in range(n): body()], the value of the body discarded. *)
Fixpoint repeat_n {A : Type} (n : nat) (body : M A) : M unit :=
  match n with
  | O => ret tt
  | S n' => body ;; repeat_n n' body
  end.

Definition range (n : Z) : nat := Z.to_nat n.

Definition print (msg : string) : M unit :=
  modify (fun e => with_trace (trace e ++ [Printed msg]) e).

(** [self.agents[agent_name]]. *)
Definition agents_getitem (agent_name : string) : M Agent :=
  e <- self ;;
  match Dict.get (agents e) agent_name with
  | Some a => ret a
  | None => raise (KeyError agent_name)
  end.

(** *** The handshake *)

(** Modelled from the spec: [HolodeckClient.release] signals that the
    simulator may run one step and read the command buffer. *)
Definition release : M unit :=
  modify (fun e => with_trace (trace e ++ [Released (shm e)]) e).

(** Modelled from the spec: [HolodeckClient.acquire] blocks until the
    simulator has written the new state, or fails when the timeout elapses. *)
Definition acquire : M unit :=
  e <- self ;;
  match engine_tick (engine (_client e)) (shm e) with
  | Some (g, m) =>
      modify (fun e => with_trace (trace e ++ [Acquired])
                                  (with_client (mkClient m g) e))
  | None => raise HandshakeTimeout
  end.

(** *** The command queue *)

(** Modelled from the spec: [CommandCenter] of [holodeck/command.py] is not
    among the sources.  [enqueue_command] appends to the ordered buffer,
    [handle_buffer] hands the whole buffer to the simulator in enqueue order
    and then clears it, [clear] discards the pending commands unsent. *)
Definition enqueue_command (c : Command) : M unit :=
  modify (fun e => with_command_center (_command_center e ++ [c]) e).

Definition handle_buffer : M unit :=
  modify (fun e =>
    let q := _command_center e in
    let m := shm e in
    with_trace (trace e ++ [Flushed q])
      (with_command_center []
        (with_memory (mkMem (RESET m) q (action_buffers m) (sensor_data m)) e))).

Definition clear : M unit :=
  modify (with_command_center []).

(** [self._reset_ptr[0] = b]. *)
Definition reset_ptr_set (b : bool) : M unit :=
  modify (fun e =>
    let m := shm e in
    with_memory (mkMem b (command_buffer m) (action_buffers m) (sensor_data m)) e).

(** *** Methods of an agent

    Modelled from the spec: the methods of [holodeck/agents.py] are not among
    the sources.  [act] records the action for the agent, to be applied at the
    next flush, the last one written winning; [teleport] and [set_state]
    enqueue a positional or kinematic override; the two setters store their
    argument in the agent. *)

Definition Agent_act (agent_name : string) (action : list Q) : M unit :=
  modify (fun e =>
    let m := shm e in
    with_memory (mkMem (RESET m) (command_buffer m)
                       (Dict.set (action_buffers m) agent_name action)
                       (sensor_data m)) e).

Definition Agent_teleport (agent_name : string)
    (location rotation : option (list Q)) : M unit :=
  enqueue_command (TeleportCommand agent_name location rotation).

Definition Agent_set_state (agent_name : string)
    (location rotation velocity angular_velocity : list Q) : M unit :=
  enqueue_command
    (SetStateCommand agent_name location rotation velocity angular_velocity).

Definition Agent_update (agent_name : string) (f : Agent -> Agent) : M unit :=
  modify (fun e =>
    match Dict.get (agents e) agent_name with
    | Some a => with_agents (Dict.set (agents e) agent_name (f a)) e
    | None => e
    end).

Definition Agent_set_ticks_per_capture (agent_name : string) (v : pyval) : M unit :=
  Agent_update agent_name (with_ticks_per_capture v).

Definition Agent_set_control_scheme (agent_name : string) (v : pyval) : M unit :=
  Agent_update agent_name (with_control_scheme v).

(** *** State aggregation *)

Definition _get_full_state : M state_map :=
  e <- self ;;
  if _copy_state e
  then ret (CopiedStateDict (create_copy (shm e) (_state_dict e)))
  else ret SharedStateDict.

(** [self._state_dict[name]]. *)
Definition state_dict_getitem (agent : string) : M (Dict.t ndarray) :=
  e <- self ;;
  match Dict.get (_state_dict e) agent with
  | Some d => ret d
  | None => raise (KeyError agent)
  end.

(** [buffer[i]] on the array as the shared memory holds it now. *)
Definition array_getitem (a : ndarray) (i : nat) : M Q :=
  e <- self ;;
  match nth_error (contents (shm e) a) i with
  | Some x => ret x
  | None => raise IndexError
  end.

(** [self._agent.name]: the main agent is referred to by the name it is
    registered under. *)
Definition main_agent_name : M string :=
  e <- self ;;
  match _agent e with
  | Some n => ret n
  | None => raise (AttributeError "name")
  end.

(** The loop of [_get_single_state] over the sensors of the main agent, the
    two local variables carried along. *)
Fixpoint scan_sensors (agent : string) (sensor_ids : list string)
    (reward : option Q) (terminal : option bool)
  : M (option Q * option bool) :=
  match sensor_ids with
  | [] => ret (reward, terminal)
  | sensor :: rest =>
      if str_contains "Task" sensor then
        d <- state_dict_getitem agent ;;
        match Dict.get d sensor with
        | Some buffer =>
            r <- array_getitem buffer 0 ;;
            t <- array_getitem buffer 1 ;;
            scan_sensors agent rest (Some r) (Some (Qeq_bool t 1))
        | None => raise (KeyError sensor)
        end
      else scan_sensors agent rest reward terminal
  end.

Definition _get_single_state : M retval :=
  agent <- main_agent_name ;;
  d <- state_dict_getitem agent ;;
  rt <- scan_sensors agent (Dict.keys d) None None ;;
  e <- self ;;
  let state := if _copy_state e
               then CopiedAgentDict (create_copy (shm e) d)
               else SharedAgentDict agent in
  ret (RetSingle state (fst rt) (snd rt)).

(** *** The public methods *)

Definition _enqueue_command (command_to_send : Command) : M unit :=
  enqueue_command command_to_send.

Definition tick : M retval :=
  e <- self ;;
  if negb (_initial_reset e)
  then raise (HolodeckException "You must call .reset() before .tick()")
  else
    handle_buffer ;;
    release ;;
    acquire ;;
    s <- _get_full_state ;;
    ret (RetFull s).

Definition step (action : list Q) : M retval :=
  e <- self ;;
  if negb (_initial_reset e)
  then raise (HolodeckException "You must call .reset() before .step()")
  else
    match _agent e with
    | Some agent =>
        Agent_act agent action ;;
        handle_buffer ;;
        release ;;
        acquire ;;
        _get_single_state
    | None =>
        handle_buffer ;;
        release ;;
        acquire ;;
        s <- _get_full_state ;;
        ret (RetFull s)
    end.

Definition teleport (agent_name : string)
    (location rotation : option (list Q)) : M retval :=
  agents_getitem agent_name ;;
  Agent_teleport agent_name location rotation ;;
  tick ;;
  ret RetNone.

Definition set_state (agent_name : string)
    (location rotation velocity angular_velocity : list Q) : M retval :=
  agents_getitem agent_name ;;
  Agent_set_state agent_name location rotation velocity angular_velocity ;;
  tick.

Definition act (agent_name : string) (action : list Q) : M unit :=
  agents_getitem agent_name ;;
  Agent_act agent_name action.

Definition set_ticks_per_capture (agent_name : string) (v : pyval) : M unit :=
  if negb (isinstance_int v) || (int_value v <? 1)%Z
  then print ("Ticks per capture value " ++ py_str v ++ " invalid")
  else
    e <- self ;;
    if negb (Dict.mem agent_name (agents e))
    then print ("No such agent " ++ agent_name)
    else
      agents_getitem agent_name ;;
      Agent_set_ticks_per_capture agent_name v ;;
      _enqueue_command (RGBCameraRateCommand agent_name v).

Definition _add_agents (agent_definitions : list AgentDefinition) : M unit :=
  for_each agent_definitions (fun agent_def =>
    e <- self ;;
    if Dict.mem (name agent_def) (agents e)
    then print "Error: agent name duplicate."
    else
      modify (fun e =>
        with_agents (Dict.set (agents e) (name agent_def) (build_agent agent_def)) e) ;;
      a <- agents_getitem (name agent_def) ;;
      modify (fun e =>
        with_state_dict
          (Dict.set (_state_dict e) (name agent_def) (agent_state_dict a)) e)).

Definition spawn_agent (agent_definition : AgentDefinition) (location : list Q)
  : M unit :=
  _add_agents [agent_definition] ;;
  _enqueue_command
    (SpawnAgentCommand location (name agent_definition)
                       (agent_type (type agent_definition))) ;;
  e <- self ;;
  match _agent e with
  | None =>
      agents_getitem (name agent_definition) ;;
      modify (with_agent (Some (name agent_definition)))
  | Some _ => ret tt
  end.

(** The body of the loop of [reset] over the agents. *)
Definition reapply_ticks_per_capture (agent : string) : M unit :=
  a <- agents_getitem agent ;;
  if has_camera a
  then
    a' <- agents_getitem agent ;;
    set_ticks_per_capture agent (get_ticks_per_capture a')
  else ret tt.

Definition reset : M retval :=
  modify (with_initial_reset true) ;;
  reset_ptr_set true ;;
  clear ;;
  e <- self ;;
  repeat_n (range (_pre_start_steps e + 1)) tick ;;
  e <- self ;;
  for_each (Dict.keys (agents e)) reapply_ticks_per_capture ;;
  e <- self ;;
  match _default_state_fn e with
  | get_single_state_fn => _get_single_state
  | get_full_state_fn => s <- _get_full_state ;; ret (RetFull s)
  end.

Definition send_world_command (name : string) (num_params : list pyfloat)
    (string_params : list string) : M unit :=
  _enqueue_command (CustomCommand name num_params string_params).

Definition default_color (color : option (list Q)) : list Q :=
  match color with
  | None => [255 # 1; 0 # 1; 0 # 1]
  | Some c => c
  end.

Definition draw_line (start stop : list Q) (color : option (list Q))
    (thickness : Q) : M unit :=
  _enqueue_command (DebugDrawCommand 0 start stop (default_color color) thickness).

Definition draw_arrow (start stop : list Q) (color : option (list Q))
    (thickness : Q) : M unit :=
  _enqueue_command (DebugDrawCommand 1 start stop (default_color color) thickness).

Definition draw_box (center extent : list Q) (color : option (list Q))
    (thickness : Q) : M unit :=
  _enqueue_command (DebugDrawCommand 2 center extent (default_color color) thickness).

Definition draw_point (loc : list Q) (color : option (list Q))
    (thickness : Q) : M unit :=
  _enqueue_command
    (DebugDrawCommand 3 loc [0 # 1; 0 # 1; 0 # 1] (default_color color) thickness).

Definition set_fog_density (density : pyfloat) : M unit :=
  if float_ltb density (Finite 0) || float_ltb (Finite 1) density
  then raise (HolodeckException "Fog density should be between 0 and 1")
  else send_world_command "SetFogDensity" [density] [].

Definition set_day_time (hour : Z) : M unit :=
  send_world_command "SetHour" [Finite (inject_Z (hour mod 24))] [].

Definition start_day_cycle (day_length : Z) : M unit :=
  if (day_length <=? 0)%Z
  then raise (HolodeckException "The given day length should be between above 0!")
  else send_world_command "SetDayCycle"
         [Finite (1 # 1); Finite (inject_Z day_length)] [].

Definition stop_day_cycle : M unit :=
  send_world_command "SetDayCycle" [Finite (0 # 1); Finite (inject_Z (-1))] [].

Definition set_weather (weather_type : string) : M unit :=
  if negb (str_in (str_lower weather_type) ["rain"; "cloudy"])
  then raise (HolodeckException ("Invalid weather type " ++ weather_type))
  else send_world_command "SetWeather" [] [weather_type].

Definition teleport_camera (location rotation : list Q) : M unit :=
  _enqueue_command (TeleportCameraCommand location rotation).

Definition should_render_viewport (render_viewport : bool) : M unit :=
  _enqueue_command (RenderViewportCommand render_viewport).

Definition set_render_quality (render_quality : Z) : M unit :=
  _enqueue_command (RenderQualityCommand render_quality).

Definition set_control_scheme (agent_name : string) (control_scheme : pyval)
  : M unit :=
  e <- self ;;
  if negb (Dict.mem agent_name (agents e))
  then print ("No such agent " ++ agent_name)
  else
    agents_getitem agent_name ;;
    Agent_set_control_scheme agent_name control_scheme.

(** [self._sensor_map]: no statement of the class assigns this attribute, so
    reading it raises. *)
Definition _sensor_map : M (Dict.t unit) :=
  raise (AttributeError "_sensor_map").

Definition set_sensor_enabled (agent_name sensor_name : string) (enabled : bool)
  : M unit :=
  sensor_map <- _sensor_map ;;
  if negb (Dict.mem agent_name sensor_map)
  then print ("No such agent " ++ agent_name)
  else _enqueue_command (SetSensorEnabledCommand agent_name sensor_name enabled).

(** *** Construction

    [__init__] without the launch of the world binary (the window, camera and
    tick-rate arguments only reach its command line): the client is given. *)

Definition lift_unit (m : M unit) : M retval := m ;; ret RetNone.

Definition __init__ (agent_definitions : list AgentDefinition)
    (pre_start_steps : Z) (copy_state : bool) (client : HolodeckClient)
  : outcome unit * HolodeckEnvironment :=
  let m := memory client in
  let fresh :=
    mkEnv pre_start_steps copy_state
          (mkClient (mkMem false (command_buffer m) (action_buffers m)
                           (sensor_data m)) (engine client))
          [] Dict.empty Dict.empty 0 None get_full_state_fn false [] in
  (_add_agents agent_definitions ;;
   e <- self ;;
   modify (with_num_agents (Dict.len (agents e))) ;;
   e <- self ;;
   (if (0 <? num_agents e)%nat
    then
      match agent_definitions with
      | d :: _ =>
          agents_getitem (name d) ;;
          modify (with_agent (Some (name d)))
      | [] => raise IndexError
      end
    else modify (with_agent None)) ;;
   e <- self ;;
   modify (with_default_state_fn
             (if (num_agents e =? 1)%nat
              then get_single_state_fn else get_full_state_fn)) ;;
   acquire ;;
   modify (with_initial_reset false)) fresh.

(** *** The public interface as a set of calls *)

Inductive call : Type :=
| call_reset
| call_step (action : list Q)
| call_tick
| call_act (agent_name : string) (action : list Q)
| call_teleport (agent_name : string) (location rotation : option (list Q))
| call_set_state (agent_name : string)
    (location rotation velocity angular_velocity : list Q)
| call_spawn_agent (agent_definition : AgentDefinition) (location : list Q)
| call_set_ticks_per_capture (agent_name : string) (v : pyval)
| call_draw_line (start stop : list Q) (color : option (list Q)) (thickness : Q)
| call_draw_arrow (start stop : list Q) (color : option (list Q)) (thickness : Q)
| call_draw_box (center extent : list Q) (color : option (list Q)) (thickness : Q)
| call_draw_point (loc : list Q) (color : option (list Q)) (thickness : Q)
| call_set_fog_density (density : pyfloat)
| call_set_day_time (hour : Z)
| call_start_day_cycle (day_length : Z)
| call_stop_day_cycle
| call_set_weather (weather_type : string)
| call_teleport_camera (location rotation : list Q)
| call_should_render_viewport (render_viewport : bool)
| call_set_render_quality (render_quality : Z)
| call_set_control_scheme (agent_name : string) (control_scheme : pyval)
| call_set_sensor_enabled (agent_name sensor_name : string) (enabled : bool)
| call_send_world_command (name : string) (num_params : list pyfloat)
    (string_params : list string).

Definition run (c : call) : M retval :=
  match c with
  | call_reset => reset
  | call_step a => step a
  | call_tick => tick
  | call_act n a => lift_unit (act n a)
  | call_teleport n l r => teleport n l r
  | call_set_state n l r v w => set_state n l r v w
  | call_spawn_agent d l => lift_unit (spawn_agent d l)
  | call_set_ticks_per_capture n v => lift_unit (set_ticks_per_capture n v)
  | call_draw_line s t c w => lift_unit (draw_line s t c w)
  | call_draw_arrow s t c w => lift_unit (draw_arrow s t c w)
  | call_draw_box s t c w => lift_unit (draw_box s t c w)
  | call_draw_point l c w => lift_unit (draw_point l c w)
  | call_set_fog_density d => lift_unit (set_fog_density d)
  | call_set_day_time h => lift_unit (set_day_time h)
  | call_start_day_cycle d => lift_unit (start_day_cycle d)
  | call_stop_day_cycle => lift_unit stop_day_cycle
  | call_set_weather w => lift_unit (set_weather w)
  | call_teleport_camera l r => lift_unit (teleport_camera l r)
  | call_should_render_viewport b => lift_unit (should_render_viewport b)
  | call_set_render_quality q => lift_unit (set_render_quality q)
  | call_set_control_scheme n v => lift_unit (set_control_scheme n v)
  | call_set_sensor_enabled n s b => lift_unit (set_sensor_enabled n s b)
  | call_send_world_command n p s => lift_unit (send_world_command n p s)
  end.

(** The environment after a sequence of calls, whatever each one returned
    or raised. *)
Fixpoint run_all (cs : list call) (e : HolodeckEnvironment) : HolodeckEnvironment :=
  match cs with
  | [] => e
  | c :: cs' => run_all cs' (snd (run c e))
  end.

(** *** Reading back what a call returned *)

Inductive observed : Type :=
| ObsNone
| ObsFull (state : Dict.t (Dict.t (list Q)))
| ObsSingle (state : Dict.t (list Q)) (reward : option Q) (terminal : option bool).

(** What a caller that kept [r] reads from it when the environment is [e]. *)
Definition observe (e : HolodeckEnvironment) (r : retval) : observed :=
  match r with
  | RetNone => ObsNone
  | RetFull SharedStateDict => ObsFull (observe_all (shm e) (_state_dict e))
  | RetFull (CopiedStateDict cp) => ObsFull (observe_all (shm e) cp)
  | RetSingle (SharedAgentDict agent) reward terminal =>
      ObsSingle
        (match Dict.get (_state_dict e) agent with
         | Some d => observe_agent (shm e) d
         | None => []
         end) reward terminal
  | RetSingle (CopiedAgentDict cp) reward terminal =>
      ObsSingle (observe_agent (shm e) cp) reward terminal
  end.

(** *** Counting on the trace *)

Definition is_acquired (ev : event) : bool :=
  match ev with Acquired => true | _ => false end.

Definition is_released (ev : event) : bool :=
  match ev with Released _ => true | _ => false end.

Definition is_flushed (ev : event) : bool :=
  match ev with Flushed _ => true | _ => false end.

(** The handshakes completed in a stretch of trace. *)
Definition handshakes (t : list event) : nat :=
  List.length (filter is_acquired t).

(** The value of the reset flag each time the simulator was released. *)
Fixpoint reset_flags_seen (t : list event) : list bool :=
  match t with
  | [] => []
  | Released m :: t' => RESET m :: reset_flags_seen t'
  | _ :: t' => reset_flags_seen t'
  end.

(** The batches handed to the simulator, in order. *)
Fixpoint flushed_batches (t : list event) : list (list Command) :=
  match t with
  | [] => []
  | Flushed q :: t' => q :: flushed_batches t'
  | _ :: t' => flushed_batches t'
  end.

(** *** Invariant of the object *)

Definition valid_rate (v : pyval) : bool :=
  isinstance_int v && negb (int_value v <? 1)%Z.

(** The capture-rate commands [reset] enqueues again, one per agent with a
    camera whose stored rate passes the setter's check. *)
Definition camera_rate_commands (ags : Dict.t Agent) : list Command :=
  flat_map (fun kv =>
    if has_camera (snd kv) && valid_rate (get_ticks_per_capture (snd kv))
    then [RGBCameraRateCommand (fst kv) (get_ticks_per_capture (snd kv))]
    else []) ags.

Definition names_unique (e : HolodeckEnvironment) : Prop :=
  NoDup (Dict.keys (agents e)) /\ NoDup (Dict.keys (_state_dict e)).

Record well_formed (e : HolodeckEnvironment) : Prop := mk_well_formed {
  wf_agents_unique : NoDup (Dict.keys (agents e));
  wf_same_keys : Dict.keys (_state_dict e) = Dict.keys (agents e);
  wf_main_agent : forall n, _agent e = Some n -> Dict.mem n (agents e) = true;
  wf_single : _default_state_fn e = get_single_state_fn -> _agent e <> None
}.

(** *** Vocabulary of the statements *)

(** A method keeps a property of the object, whether it returns or raises. *)
Definition preserves {A : Type} (P : HolodeckEnvironment -> Prop) (m : M A) : Prop :=
  forall e, P e -> P (snd (m e)).

(** The simulator answers every handshake in time. *)
Definition always_answers : Prop :=
  forall (g : Engine) m, engine_tick g m <> None.



(** The sensors of an agent's state dict that [_get_single_state] takes for
    task sensors, in iteration order. *)
Definition task_sensors (d : Dict.t ndarray) : list (string * ndarray) :=
  filter (fun kv => str_contains "Task" (fst kv)) d.

(** The shared memory once the pending commands have been flushed to it. *)
Definition flushed_memory (e : HolodeckEnvironment) : SharedMemory :=
  mkMem (RESET (shm e)) (_command_center e) (action_buffers (shm e))
        (sensor_data (shm e)).

(** What one tick adds to the trace. *)
Definition tick_events (e : HolodeckEnvironment) : list event :=
  [Flushed (_command_center e); Released (flushed_memory e); Acquired].

(** The object after one tick that the simulator answered with its new
    state [g] and the shared memory [m]. *)
Definition after_tick (g : Engine) (m : SharedMemory) (e : HolodeckEnvironment)
  : HolodeckEnvironment :=
  with_trace (trace e ++ tick_events e)
    (with_client (mkClient m g) (with_command_center [] e)).

(** The object when the simulator did not answer the tick. *)
Definition stuck_tick (e : HolodeckEnvironment) : HolodeckEnvironment :=
  with_trace (trace e ++ [Flushed (_command_center e); Released (flushed_memory e)])
    (with_command_center [] (with_memory (flushed_memory e) e)).

(** What [_get_full_state] returns on the object [e]. *)
Definition full_state_of (e : HolodeckEnvironment) : state_map :=
  if _copy_state e
  then CopiedStateDict (create_copy (shm e) (_state_dict e))
  else SharedStateDict.

Definition enqueued (c : Command) (e : HolodeckEnvironment) : HolodeckEnvironment :=
  with_command_center (_command_center e ++ [c]) e.

Definition printed (msg : string) (e : HolodeckEnvironment) : HolodeckEnvironment :=
  with_trace (trace e ++ [Printed msg]) e.

(** The last element of a list, if it has one. *)
Fixpoint last_opt {A : Type} (l : list A) : option A :=
  match l with
  | [] => None
  | x :: l' => match l' with [] => Some x | _ => last_opt l' end
  end.

(** If the method returns from an object with [P], the value and the object
    it leaves satisfy [Q]. *)
Definition hoare {A : Type} (P : HolodeckEnvironment -> Prop) (m : M A)
    (Q : A -> HolodeckEnvironment -> Prop) : Prop :=
  forall e a e', P e -> m e = (Return a, e') -> Q a e'.

Definition is_owned (a : ndarray) : Prop :=
  match a with
  | Owned _ => True
  | View _ _ _ => False
  end.

(** No array of the dictionary is a view of the shared memory. *)
Definition owned_only (d : Dict.t ndarray) : Prop :=
  Forall (fun kv => is_owned (snd kv)) d.

(** A returned value that holds no reference to the object's own
    dictionaries and no view of the shared memory. *)
Definition self_contained (r : retval) : Prop :=
  match r with
  | RetNone => True
  | RetFull (CopiedStateDict cp) => Forall (fun kv => owned_only (snd kv)) cp
  | RetSingle (CopiedAgentDict cp) _ _ => owned_only cp
  | RetFull SharedStateDict => False
  | RetSingle (SharedAgentDict _) _ _ => False
  end.


(** The object once [act] has written an action for the agent. *)
Definition acted (agent : string) (action : list Q) (e : HolodeckEnvironment)
  : HolodeckEnvironment :=
  with_memory (mkMem (RESET (shm e)) (command_buffer (shm e))
                     (Dict.set (action_buffers (shm e)) agent action)
                     (sensor_data (shm e))) e.

(** The object once [_add_agents] has registered a definition under a name
    that was free. *)
Definition registered (d : AgentDefinition) (e : HolodeckEnvironment)
  : HolodeckEnvironment :=
  with_state_dict
    (Dict.set (_state_dict e) (name d) (agent_state_dict (build_agent d)))
    (with_agents (Dict.set (agents e) (name d) (build_agent d)) e).

Definition duplicate_message : string := "Error: agent name duplicate.".

(** What [_add_agents] does with one definition. *)
Definition add_one (d : AgentDefinition) (e : HolodeckEnvironment)
  : HolodeckEnvironment :=
  if Dict.mem (name d) (agents e)
  then printed duplicate_message e
  else registered d e.

(** The object after the first three statements of [reset]. *)
Definition reset_started (e : HolodeckEnvironment) : HolodeckEnvironment :=
  with_command_center []
    (with_memory (mkMem true (command_buffer (shm e)) (action_buffers (shm e))
                        (sensor_data (shm e)))
                 (with_initial_reset true e)).

(** [n] ticks one after the other on an object that has been reset. *)
Fixpoint ticks_from (n : nat) (e : HolodeckEnvironment)
  : outcome unit * HolodeckEnvironment :=
  match n with
  | O => (Return tt, e)
  | S n' =>
      match engine_tick (engine (_client e)) (flushed_memory e) with
      | Some (g, m) => ticks_from n' (after_tick g m e)
      | None => (Raise HandshakeTimeout, stuck_tick e)
      end
  end.

Definition invalid_rate_message (v : pyval) : string :=
  "Ticks per capture value " ++ py_str v ++ " invalid".

(** The lines [reset] prints for the agents with a camera whose stored rate
    does not pass the setter's check. *)
Definition rate_warnings (ags : Dict.t Agent) : list event :=
  flat_map (fun kv =>
    if has_camera (snd kv) && negb (valid_rate (get_ticks_per_capture (snd kv)))
    then [Printed (invalid_rate_message (get_ticks_per_capture (snd kv)))]
    else []) ags.

(** The object once the capture rates of the agents [ags] have been applied
    again. *)
Definition reapplied (ags : Dict.t Agent) (e : HolodeckEnvironment)
  : HolodeckEnvironment :=
  with_trace (trace e ++ rate_warnings ags)
    (with_command_center (_command_center e ++ camera_rate_commands ags) e).

(** What the default state function returns on the object [e]. *)
Definition default_state (e : HolodeckEnvironment)
  : outcome retval * HolodeckEnvironment :=
  match _default_state_fn e with
  | get_single_state_fn => _get_single_state e
  | get_full_state_fn => (Return (RetFull (full_state_of e)), e)
  end.

(** The densities that [set_fog_density] is documented to take: the numbers
    between 0 and 1. *)
Definition in_unit_interval (d : pyfloat) : Prop :=
  match d with
  | Finite q => (0 <= q /\ q <= 1)%Q
  | _ => False
  end.

Definition is_printed (ev : event) : Prop :=
  match ev with Printed _ => True | _ => False end.

(** The calls that tick: they flush the queue, or clear it first. *)
Definition is_ticking (c : call) : Prop :=
  match c with
  | call_reset | call_tick | call_step _
  | call_teleport _ _ _ | call_set_state _ _ _ _ _ => True
  | _ => False
  end.

(** Whose turn it is in the handshake. *)
Inductive phase : Type :=
| ControllerTurn
| EngineTurn.

(** Follows a trace through the handshake from a given turn: the controller
    may flush and release only during its own turn, and acquires only what
    the simulator holds; [None] when the trace breaks this. *)
Fixpoint protocol (p : phase) (t : list event) : option phase :=
  match t with
  | [] => Some p
  | Printed _ :: t' => protocol p t'
  | Flushed _ :: t' =>
      match p with
      | ControllerTurn => protocol ControllerTurn t'
      | EngineTurn => None
      end
  | Released _ :: t' =>
      match p with
      | ControllerTurn => protocol EngineTurn t'
      | EngineTurn => None
      end
  | Acquired :: t' =>
      match p with
      | EngineTurn => protocol ControllerTurn t'
      | ControllerTurn => None
      end
  end.

(** The names of a list of definitions, each at its first occurrence. *)
Fixpoint first_names (seen : list string) (defs : list AgentDefinition)
  : list string :=
  match defs with
  | [] => []
  | d :: defs' =>
      if str_in (name d) seen
      then first_names seen defs'
      else name d :: first_names (seen ++ [name d]) defs'
  end.

(** Every registered agent has its own state dict under its name in
    [_state_dict], in the same order, and the main agent is registered. *)
Definition mirrors (e : HolodeckEnvironment) : Prop :=
  _state_dict e = map (fun kv => (fst kv, agent_state_dict (snd kv))) (agents e)
  /\ (forall n, _agent e = Some n -> Dict.mem n (agents e) = true).

(** Every sensor of the definition whose identifier contains [Task] holds
    at least the two elements that [_get_single_state] reads from it. *)
Definition task_sensors_sized (d : AgentDefinition) : Prop :=
  forall s, In s (sensors d) -> str_contains "Task" (sensor_name s) = true ->
            (2 <= sensor_size s)%nat.

(** The state that [_get_single_state] hands back for the main agent
    [agent] whose state dict is [d]. *)
Definition single_state_of (e : HolodeckEnvironment) (agent : string)
    (d : Dict.t ndarray) : agent_state :=
  if _copy_state e
  then CopiedAgentDict (create_copy (shm e) d)
  else SharedAgentDict agent.

(** The main agent is the agent built from the definition [d], registered
    under its name with the state dict it was built with. *)
Definition main_agent_is (d : AgentDefinition) (e : HolodeckEnvironment) : Prop :=
  _agent e = Some (name d)
  /\ exists a, Dict.get (agents e) (name d) = Some a
               /\ agent_state_dict a = agent_state_dict (build_agent d).

(** The object that [spawn_agent] leaves. *)
Definition spawned (d : AgentDefinition) (location : list Q)
    (e : HolodeckEnvironment) : HolodeckEnvironment :=
  let e1 :=
    enqueued (SpawnAgentCommand location (name d) (agent_type (type d)))
             (add_one d e) in
  match _agent e1 with
  | None => with_agent (Some (name d)) e1
  | Some _ => e1
  end.

End Environment.

(** ** Concrete worlds

    Small simulators and agent definitions on which the methods can be run. *)

Definition empty_memory : SharedMemory := mkMem false [] [] [].

(** A simulator that counts its frames, consumes the reset flag, and writes
    the frame number into the sensors of agent [uav0]: its task sensor reports
    the frame number as reward and becomes terminal from frame three on. *)
Definition counting_engine : Simulator nat := fun frame m =>
  let n := inject_Z (Z.of_nat frame) in
  Some (S frame,
        mkMem false (command_buffer m) (action_buffers m)
              [("uav0",
                [("RGBCamera", [n; n; n]);
                 ("LocationSensor", [n; 0 # 1; 0 # 1]);
                 ("DistanceTask", [n; if (3 <=? frame)%nat then 1 # 1 else 0 # 1])])]).

(** [str()]: an [int] in decimal, a string as it is. *)
Definition str_of : Str := fun v =>
  match v with
  | PyNone => "None"
  | PyBool true => "True"
  | PyBool false => "False"
  | PyInt z => NilZero.string_of_int (Z.to_int z)
  | PyFloat repr => repr
  | PyStr s => s
  end.

Definition uav0 : AgentDefinition :=
  mkAgentDefinition "uav0" (mkAgentType "UavAgent")
                    [mkSensor "RGBCamera" 3; mkSensor "LocationSensor" 3;
                     mkSensor "DistanceTask" 2].

Definition sphere0 : AgentDefinition :=
  mkAgentDefinition "sphere0" (mkAgentType "SphereAgent")
                    [mkSensor "LocationSensor" 3].

(** A second definition that reuses the name [uav0]. *)
Definition uav0_again : AgentDefinition :=
  mkAgentDefinition "uav0" (mkAgentType "SphereAgent")
                    [mkSensor "LocationSensor" 3].

(** The agents of these worlds: a definition that lists the sensor
    [RGBCamera] is built with a camera that captures at every tick. *)
#[export] Instance camera_factory : AgentFactory :=
  {| built_with_camera d := str_in "RGBCamera" (map sensor_name (sensors d));
     initial_ticks_per_capture _ := PyInt 1;
     initial_control_scheme _ := PyInt 0 |}.

(** Environments as [__init__] leaves them. *)
Definition single_env (copy_state : bool) : HolodeckEnvironment :=
  snd (__init__ (simulator := counting_engine) [uav0] 2 copy_state
                (mkClient empty_memory O)).

Definition multi_env : HolodeckEnvironment :=
  snd (__init__ (simulator := counting_engine) [uav0; sphere0] 2 true
                (mkClient empty_memory O)).

(** The same, once [reset] has been called. *)
Definition ready_single_env (copy_state : bool) : HolodeckEnvironment :=
  snd (reset (simulator := counting_engine) (str := str_of)
             (single_env copy_state)).

Definition ready_multi_env : HolodeckEnvironment :=
  snd (reset (simulator := counting_engine) (str := str_of) multi_env).


(** A tick of the single-agent world after its reset: what it returned and
    the object it left. *)
Definition ticked_state : retval :=
  match fst (tick (simulator := counting_engine) (ready_single_env true)) with
  | Return r => r
  | Raise _ => RetNone
  end.

Definition ticked_env : HolodeckEnvironment :=
  snd (tick (simulator := counting_engine) (ready_single_env true)).

(** The state dict of [uav0]. *)
Definition uav0_state_dict : Dict.t ndarray :=
  [("RGBCamera", View "uav0" "RGBCamera" 3);
   ("LocationSensor", View "uav0" "LocationSensor" 3);
   ("DistanceTask", View "uav0" "DistanceTask" 2)].

(** A single-agent world that asks for no settling tick at all. *)
Definition hasty_env : HolodeckEnvironment :=
  snd (__init__ (simulator := counting_engine) [uav0] (-1) true
                (mkClient empty_memory O)).

(** A simulator that keeps to the ownership of the shared cells: it counts
    its frames and writes the sensors of [uav0] and [rover0], and never
    writes the reset cell. *)
Definition steady_engine : Simulator nat := fun frame m =>
  let n := inject_Z (Z.of_nat frame) in
  Some (S frame,
        mkMem (RESET m) (command_buffer m) (action_buffers m)
              [("uav0",
                [("RGBCamera", [n; n; n]);
                 ("LocationSensor", [n; 0 # 1; 0 # 1]);
                 ("DistanceTask", [n; 0 # 1])]);
               ("rover0",
                [("TaskTimer", [n]);
                 ("LocationSensor", [n; 0 # 1; 0 # 1]);
                 ("DistanceTask", [n; 0 # 1])])]).







(** An agent with two sensors whose identifiers contain [Task]: a timer of
    one element, and after it the task sensor with reward and terminal. *)
Definition rover0 : AgentDefinition :=
  mkAgentDefinition "rover0" (mkAgentType "NavAgent")
                    [mkSensor "TaskTimer" 1; mkSensor "LocationSensor" 3;
                     mkSensor "DistanceTask" 2].

Definition rover0_state_dict : Dict.t ndarray :=
  [("TaskTimer", View "rover0" "TaskTimer" 1);
   ("LocationSensor", View "rover0" "LocationSensor" 3);
   ("DistanceTask", View "rover0" "DistanceTask" 2)].

(** The world of that agent alone, as its first [reset] leaves it. *)
Definition rover_env : HolodeckEnvironment :=
  snd (reset (simulator := steady_engine) (str := str_of)
             (snd (__init__ (simulator := steady_engine) [rover0] 2 true
                            (mkClient empty_memory O)))).

(** The single-agent world in reference mode, after a tick. *)
Definition ticked_reference_env : HolodeckEnvironment :=
  snd (tick (simulator := counting_engine) (ready_single_env false)).

(** * Properties *)

(** ** Dictionaries *)

Module DictFacts.

Lemma mem_in_keys {V : Type} (d : Dict.t V) (k : string) :
  Dict.mem k d = true <-> In k (Dict.keys d).
Proof.
  unfold Dict.mem. induction d as [|[k' v] d IH]; simpl.
  - split; [discriminate | tauto].
  - destruct (String.eqb_spec k k') as [->|Hne].
    + split; auto.
    + rewrite IH. split; [tauto|]. intros [Heq|Hin]; [congruence | assumption].
Qed.

Lemma mem_false_not_in {V : Type} (d : Dict.t V) (k : string) :
  Dict.mem k d = false <-> ~ In k (Dict.keys d).
Proof.
  rewrite <- mem_in_keys. destruct (Dict.mem k d); split; congruence.
Qed.

Lemma get_some_mem {V : Type} (d : Dict.t V) (k : string) (v : V) :
  Dict.get d k = Some v -> Dict.mem k d = true.
Proof. unfold Dict.mem. intros ->. reflexivity. Qed.

Lemma mem_get {V : Type} (d : Dict.t V) (k : string) :
  Dict.mem k d = true -> exists v, Dict.get d k = Some v.
Proof.
  unfold Dict.mem. destruct (Dict.get d k) as [v|]; [eauto | discriminate].
Qed.

Lemma get_set_same {V : Type} (d : Dict.t V) (k : string) (v : V) :
  Dict.get (Dict.set d k v) k = Some v.
Proof.
  induction d as [|[k' v'] d IH]; simpl.
  - now rewrite String.eqb_refl.
  - destruct (String.eqb_spec k k') as [->|Hne]; simpl.
    + now rewrite String.eqb_refl.
    + destruct (String.eqb_spec k k'); [contradiction | assumption].
Qed.

Lemma get_set_other {V : Type} (d : Dict.t V) (k k0 : string) (v : V) :
  k0 <> k -> Dict.get (Dict.set d k v) k0 = Dict.get d k0.
Proof.
  intros Hne. induction d as [|[k' v'] d IH]; simpl.
  - destruct (String.eqb_spec k0 k); [contradiction | reflexivity].
  - destruct (String.eqb_spec k k') as [->|Hkk']; simpl.
    + destruct (String.eqb_spec k0 k'); [contradiction | reflexivity].
    + now rewrite IH.
Qed.

(** Assigning to a key that is present keeps the keys and their order. *)
Lemma keys_set_present {V : Type} (d : Dict.t V) (k : string) (v : V) :
  Dict.mem k d = true -> Dict.keys (Dict.set d k v) = Dict.keys d.
Proof.
  unfold Dict.mem. induction d as [|[k' v'] d IH]; simpl; [discriminate|].
  destruct (String.eqb_spec k k') as [->|Hne]; simpl; [reflexivity|].
  intros H. now rewrite IH.
Qed.

(** Assigning to a new key appends it. *)
Lemma keys_set_absent {V : Type} (d : Dict.t V) (k : string) (v : V) :
  Dict.mem k d = false -> Dict.keys (Dict.set d k v) = Dict.keys d ++ [k].
Proof.
  unfold Dict.mem. induction d as [|[k' v'] d IH]; simpl; [reflexivity|].
  destruct (String.eqb_spec k k') as [->|Hne]; simpl; [discriminate|].
  intros H. now rewrite IH.
Qed.

Lemma set_absent {V : Type} (d : Dict.t V) (k : string) (v : V) :
  Dict.mem k d = false -> Dict.set d k v = d ++ [(k, v)].
Proof.
  unfold Dict.mem. induction d as [|[k' v'] d IH]; simpl; [reflexivity|].
  destruct (String.eqb_spec k k') as [->|Hne]; simpl; [discriminate|].
  intros H. now rewrite IH.
Qed.

(** Storing back the value a key already has changes nothing. *)
Lemma set_same_value {V : Type} (d : Dict.t V) (k : string) (v : V) :
  Dict.get d k = Some v -> Dict.set d k v = d.
Proof.
  induction d as [|[k' v'] d IH]; simpl; [discriminate|].
  destruct (String.eqb_spec k k') as [->|Hne].
  - now intros [= ->].
  - intros H. now rewrite IH.
Qed.

Lemma set_keeps_unique {V : Type} (d : Dict.t V) (k : string) (v : V) :
  NoDup (Dict.keys d) -> NoDup (Dict.keys (Dict.set d k v)).
Proof.
  intros Hnd. destruct (Dict.mem k d) eqn:Hmem.
  - now rewrite keys_set_present.
  - rewrite keys_set_absent by assumption.
    apply NoDup_app; [assumption | repeat constructor; simpl; tauto |].
    intros x Hx [<-|[]]. now apply mem_false_not_in in Hmem.
Qed.

Lemma get_in {V : Type} (d : Dict.t V) (k : string) (v : V) :
  NoDup (Dict.keys d) -> In (k, v) d -> Dict.get d k = Some v.
Proof.
  induction d as [|[k' v'] d IH]; simpl; [tauto|].
  intros Hnd [Heq|Hin].
  - injection Heq as -> ->. now rewrite String.eqb_refl.
  - inversion Hnd as [|? ? Hnotin Hnd']; subst.
    destruct (String.eqb_spec k k') as [->|Hne]; [|now apply IH].
    exfalso. apply Hnotin. change k' with (fst (k', v)). now apply in_map.
Qed.

End DictFacts.

(** ** The monad of methods *)

Section Properties.

Context {Engine : Type} {simulator : Simulator Engine} {str : Str}
        {factory : AgentFactory}.

Local Abbreviation Env := (@HolodeckEnvironment Engine).

Lemma bind_return {A B : Type} (m : M A) (k : A -> M B) (e e' : Env) (a : A) :
  m e = (Return a, e') -> bind m k e = k a e'.
Proof. unfold bind. now intros ->. Qed.

Lemma bind_raise {A B : Type} (m : M A) (k : A -> M B) (e e' : Env) (x : exn) :
  m e = (Raise x, e') -> bind m k e = (Raise x, e').
Proof. unfold bind. now intros ->. Qed.

(** A bind that returns went through a first part that returned. *)
Lemma bind_inv {A B : Type} (m : M A) (k : A -> M B) (e e2 : Env) (b : B) :
  bind m k e = (Return b, e2) ->
  exists a e1, m e = (Return a, e1) /\ k a e1 = (Return b, e2).
Proof.
  unfold bind. destruct (m e) as [[a|x] e1]; [eauto | discriminate].
Qed.

Lemma preserves_ret {A : Type} (P : Env -> Prop) (a : A) : preserves P (ret a).
Proof. intros e H. exact H. Qed.

Lemma preserves_raise {A : Type} (P : Env -> Prop) (x : exn) :
  preserves P (@raise Engine A x).
Proof. intros e H. exact H. Qed.

Lemma preserves_self (P : Env -> Prop) : preserves P self.
Proof. intros e H. exact H. Qed.

Lemma preserves_bind {A B : Type} (P : Env -> Prop) (m : M A) (k : A -> M B) :
  preserves P m -> (forall a, preserves P (k a)) -> preserves P (bind m k).
Proof.
  intros Hm Hk e H. unfold bind. specialize (Hm e H).
  destruct (m e) as [[a|x] e1]; simpl in *; [now apply Hk | assumption].
Qed.

Lemma preserves_modify (P : Env -> Prop) (f : Env -> Env) :
  (forall e, P e -> P (f e)) -> preserves P (modify f).
Proof. intros Hf e H. now apply Hf. Qed.

Lemma preserves_for_each {A : Type} (P : Env -> Prop) (xs : list A)
    (body : A -> M unit) :
  (forall x, preserves P (body x)) -> preserves P (for_each xs body).
Proof.
  intros Hb. induction xs as [|x xs IH]; simpl.
  - apply preserves_ret.
  - apply preserves_bind; auto.
Qed.

Lemma preserves_repeat_n {A : Type} (P : Env -> Prop) (n : nat) (body : M A) :
  preserves P body -> preserves P (repeat_n n body).
Proof.
  intros Hb. induction n as [|n IH]; simpl.
  - apply preserves_ret.
  - apply preserves_bind; auto.
Qed.

Lemma preserves_if {A : Type} (P : Env -> Prop) (b : bool) (m1 m2 : M A) :
  preserves P m1 -> preserves P m2 -> preserves P (if b then m1 else m2).
Proof. now destruct b. Qed.

(** The scan of the sensors only reads. *)
Lemma scan_sensors_read_only (agent : string) (ids : list string)
    (reward : option Q) (terminal : option bool) (e : Env) :
  snd (scan_sensors agent ids reward terminal e) = e.
Proof.
  revert reward terminal. induction ids as [|s ids IH]; intros; simpl.
  - reflexivity.
  - destruct (str_contains "Task" s); [|apply IH].
    cbv beta iota delta [bind state_dict_getitem array_getitem self ret raise].
    destruct (Dict.get (_state_dict e) agent) as [d|]; [|reflexivity].
    destruct (Dict.get d s) as [buffer|]; [|reflexivity].
    destruct (nth_error (contents (shm e) buffer) 0); [|reflexivity].
    destruct (nth_error (contents (shm e) buffer) 1); [|reflexivity].
    apply IH.
Qed.

Lemma preserves_scan_sensors (P : Env -> Prop) (agent : string)
    (ids : list string) (reward : option Q) (terminal : option bool) :
  preserves P (scan_sensors agent ids reward terminal).
Proof. intros e H. now rewrite scan_sensors_read_only. Qed.

(** Walks through a method statement by statement; what remains are the
    assignments, as goals on the property itself. *)
Ltac walk :=
  repeat first
    [ match goal with
      | |- preserves _ (ret _) => apply preserves_ret
      | |- preserves _ (raise _) => apply preserves_raise
      | |- preserves _ self => apply preserves_self
      | |- preserves _ (scan_sensors _ _ _ _) => apply preserves_scan_sensors
      | |- preserves _ (for_each _ (fun _ => _)) =>
          apply preserves_for_each; intros ?
      | |- preserves _ (for_each _ _) => apply preserves_for_each; intros ?
      | |- preserves _ (repeat_n _ _) => apply preserves_repeat_n
      | |- preserves _ (bind _ _) => apply preserves_bind; [|intros ?]
      | |- preserves _ (modify _) => apply preserves_modify; intros ? ?
      | |- preserves _ (if ?b then _ else _) => destruct b
      | |- preserves _ (match ?x with _ => _ end) => destruct x
      end
    | progress unfold
        print, agents_getitem, release, acquire, enqueue_command,
        handle_buffer, clear, reset_ptr_set, Agent_act, Agent_teleport,
        Agent_set_state, Agent_set_ticks_per_capture, Agent_set_control_scheme,
        Agent_update, _get_full_state, state_dict_getitem, array_getitem,
        main_agent_name, _get_single_state, _enqueue_command, lift_unit
    | progress unfold
        tick, step, teleport, set_state, act, set_ticks_per_capture,
        reapply_ticks_per_capture, _add_agents, spawn_agent, send_world_command, draw_line, draw_arrow,
        draw_box, draw_point, set_fog_density, set_day_time, start_day_cycle,
        stop_day_cycle, set_weather, teleport_camera, should_render_viewport,
        set_render_quality, set_control_scheme, set_sensor_enabled,
        _sensor_map ].

(** Closes what [walk] leaves when the property reads fields that the
    assignment at hand does not write. *)
Ltac untouched :=
  cbn in *;
  repeat match goal with
         | |- context [match ?x with _ => _ end] => destruct x
         end;
  cbn in *; try assumption; try tauto.

(** ** The reset flag of the object

    Only [reset] writes [_initial_reset]. *)

Lemma run_keeps_initial_reset (c : call) (b : bool) :
  c <> call_reset -> preserves (fun e : Env => _initial_reset e = b) (run c).
Proof.
  intros Hc. destruct c; try congruence; cbn [run]; walk; untouched.
Qed.

Lemma run_all_keeps_initial_reset (cs : list call) (b : bool) (e : Env) :
  Forall (fun c => c <> call_reset) cs ->
  _initial_reset e = b -> _initial_reset (run_all cs e) = b.
Proof.
  intros Hcs. revert e. induction Hcs as [|c cs Hc _ IH]; intros e He; simpl.
  - exact He.
  - apply IH. now apply (run_keeps_initial_reset c b Hc).
Qed.

Lemma init_starts_unreset (defs : list AgentDefinition) (pre : Z) (copy : bool)
    (client : HolodeckClient) :
  _initial_reset (snd (__init__ defs pre copy client)) = false.
Proof.
  unfold __init__.
  match goal with
  | |- _initial_reset (snd (?m ?fresh)) = false =>
      assert (H : preserves (fun e : Env => _initial_reset e = false) m)
        by (walk; untouched);
      exact (H fresh eq_refl)
  end.
Qed.

Lemma step_not_ready (action : list Q) (e : Env) :
  _initial_reset e = false ->
  step action e
  = (Raise (HolodeckException "You must call .reset() before .step()"), e).
Proof. intros H. unfold step, bind, self. now rewrite H. Qed.

Lemma tick_not_ready (e : Env) :
  _initial_reset e = false ->
  tick e
  = (Raise (HolodeckException "You must call .reset() before .tick()"), e).
Proof. intros H. unfold tick, bind, self. now rewrite H. Qed.

(** C1: on an environment as the constructor built it, and after any calls
    among which there is no [reset], [step] and [tick] raise the
    [HolodeckException] that asks for [reset] first, and they leave the
    object exactly as it was: the same trace (nothing flushed, no handshake),
    the same agents, command queue and shared memory with its reset flag. *)
Theorem step_and_tick_before_reset (defs : list AgentDefinition) (pre : Z)
    (copy : bool) (client : HolodeckClient) (e0 : Env) (cs : list call) :
  __init__ defs pre copy client = (Return tt, e0) ->
  Forall (fun c => c <> call_reset) cs ->
  let e := run_all cs e0 in
  (forall action,
     step action e
     = (Raise (HolodeckException "You must call .reset() before .step()"), e))
  /\ tick e
     = (Raise (HolodeckException "You must call .reset() before .tick()"), e).
Proof.
  intros Hinit Hcs e.
  assert (He : _initial_reset e = false).
  { apply run_all_keeps_initial_reset; [assumption|].
    change e0 with (snd (Return tt, e0)). rewrite <- Hinit.
    apply init_starts_unreset. }
  split; [intros action; now apply step_not_ready | now apply tick_not_ready].
Qed.

(** ** One tick *)

Lemma tick_ready (e : Env) :
  _initial_reset e = true ->
  tick e
  = match engine_tick (engine (_client e)) (flushed_memory e) with
    | Some (g, m) =>
        (Return (RetFull (full_state_of (after_tick g m e))), after_tick g m e)
    | None => (Raise HandshakeTimeout, stuck_tick e)
    end.
Proof.
  intros H. destruct e as [pre copy [mem g0] q ags sd n main fn ready tr].
  cbn in H. subst ready.
  unfold tick, after_tick, stuck_tick, full_state_of, tick_events, flushed_memory.
  cbv beta iota delta [bind self ret raise modify handle_buffer release acquire
                       _get_full_state].
  cbn -[create_copy].
  destruct (engine_tick _ _) as [[g m]|]; cbn -[create_copy];
    [destruct copy|]; cbn -[create_copy]; rewrite <- ?app_assoc; reflexivity.
Qed.

(** ** Validation in the setters *)

Lemma Qltb_lt (a b : Q) : Qltb a b = true <-> (a < b)%Q.
Proof.
  unfold Qltb. rewrite negb_true_iff. split.
  - intros H. apply Qnot_le_lt. intros Hle.
    apply Qle_bool_iff in Hle. congruence.
  - intros H. destruct (Qle_bool b a) eqn:Hle; [|reflexivity].
    apply Qle_bool_iff in Hle. exfalso. now apply (Qlt_not_le a b).
Qed.

Lemma Qltb_ge (a b : Q) : Qltb a b = false <-> (b <= a)%Q.
Proof.
  unfold Qltb. rewrite negb_false_iff. apply Qle_bool_iff.
Qed.

Lemma float_ltb_nan (d : pyfloat) :
  float_ltb NaN d = false /\ float_ltb d NaN = false.
Proof. now destruct d. Qed.

(** On every density but [NaN] the guard of [set_fog_density] decides
    whether the density lies in [0, 1]: outside, the call raises and leaves
    the object, its command queue included, as it was; inside, it appends
    exactly one command, the custom command [SetFogDensity] whose numeric
    parameters are the list [[d]], and changes nothing else. *)
Lemma set_fog_density_validates (d : pyfloat) (e : Env) :
  d <> NaN ->
  (~ in_unit_interval d ->
   set_fog_density d e
   = (Raise (HolodeckException "Fog density should be between 0 and 1"), e))
  /\ (in_unit_interval d ->
      set_fog_density d e
      = (Return tt, enqueued (CustomCommand "SetFogDensity" [d] []) e)).
Proof.
  intros Hnan. unfold set_fog_density, in_unit_interval.
  destruct d as [q| | |]; cbn [float_ltb orb]; try congruence;
    try (split; [reflexivity | tauto]).
  destruct (Qltb q 0) eqn:Hlo; cbn [orb].
  - apply Qltb_lt in Hlo. split; [reflexivity|].
    intros [H0 _]. exfalso. now apply (Qlt_not_le q 0).
  - apply Qltb_ge in Hlo. destruct (Qltb 1 q) eqn:Hhi.
    + apply Qltb_lt in Hhi. split; [reflexivity|].
      intros [_ H1]. exfalso. now apply (Qlt_not_le 1 q).
    + apply Qltb_ge in Hhi. split; [|reflexivity].
      intros Hout. exfalso. apply Hout. now split.
Qed.

(** C7, where the code departs from it: [NaN] is a density outside [0, 1],
    but it is neither below 0 nor above 1, so the guard lets it pass:
    [set_fog_density] raises nothing and appends the command
    [SetFogDensity] with the numeric parameters [[NaN]]. *)
Theorem set_fog_density_lets_nan_through (e : Env) :
  ~ in_unit_interval NaN
  /\ set_fog_density NaN e
     = (Return tt, enqueued (CustomCommand "SetFogDensity" [NaN] []) e).
Proof. split; [intros [] | reflexivity]. Qed.

(** The soft channel: an invalid rate is printed and nothing else happens. *)
Lemma set_ticks_per_capture_invalid_rate (n : string) (v : pyval) (e : Env) :
  valid_rate v = false ->
  set_ticks_per_capture n v e
  = (Return tt, printed ("Ticks per capture value " ++ py_str v ++ " invalid") e).
Proof.
  unfold valid_rate, set_ticks_per_capture. intros Hv.
  assert (Hb : negb (isinstance_int v) || (int_value v <? 1)%Z = true).
  { destruct (isinstance_int v); simpl in *; [|reflexivity].
    now apply negb_false_iff in Hv. }
  now rewrite Hb.
Qed.

Lemma set_ticks_per_capture_unknown_agent (n : string) (v : pyval) (e : Env) :
  valid_rate v = true ->
  Dict.mem n (agents e) = false ->
  set_ticks_per_capture n v e = (Return tt, printed ("No such agent " ++ n) e).
Proof.
  unfold valid_rate, set_ticks_per_capture. intros Hv Hn.
  assert (Hb : negb (isinstance_int v) || (int_value v <? 1)%Z = false).
  { apply andb_true_iff in Hv as [-> Hv]. simpl. now apply negb_true_iff in Hv. }
  rewrite Hb. unfold bind, self. now rewrite Hn.
Qed.

Lemma set_control_scheme_unknown_agent (n : string) (v : pyval) (e : Env) :
  Dict.mem n (agents e) = false ->
  set_control_scheme n v e = (Return tt, printed ("No such agent " ++ n) e).
Proof.
  intros Hn. unfold set_control_scheme, bind, self. now rewrite Hn.
Qed.

(** C8, where the code departs from it: [set_sensor_enabled] reads the
    attribute [_sensor_map], which the class never assigns, so whatever the
    agent name, known or unknown, the call raises [AttributeError]; it prints
    nothing and enqueues nothing. *)
Theorem set_sensor_enabled_raises (n s : string) (b : bool) (e : Env) :
  set_sensor_enabled n s b e = (Raise (AttributeError "_sensor_map"), e).
Proof. reflexivity. Qed.

(** ** Acting without a tick *)

(** C10: [act] on a name that is not registered raises at once (the
    [KeyError] of the dictionary lookup) and leaves the object as it was; on a
    registered name it returns after writing the action into the agent's
    action buffer, where it stays until the next flush: the trace is the same
    (no flush, no handshake) and so are the command queue and the simulator. *)
Theorem act_records_without_tick (n : string) (action : list Q) (e : Env) :
  (Dict.mem n (agents e) = false -> act n action e = (Raise (KeyError n), e))
  /\ (Dict.mem n (agents e) = true ->
      exists e',
        act n action e = (Return tt, e')
        /\ Dict.get (action_buffers (shm e')) n = Some action
        /\ trace e' = trace e
        /\ _command_center e' = _command_center e
        /\ engine (_client e') = engine (_client e)
        /\ sensor_data (shm e') = sensor_data (shm e)
        /\ RESET (shm e') = RESET (shm e)
        /\ agents e' = agents e).
Proof.
  unfold act, agents_getitem, Dict.mem, bind, self. split.
  - destruct (Dict.get (agents e) n); [discriminate | reflexivity].
  - destruct (Dict.get (agents e) n); [|discriminate]. intros _.
    eexists. split; [reflexivity|]. cbn.
    repeat split; try reflexivity. apply DictFacts.get_set_same.
Qed.

(** ** Overrides that tick *)

Lemma agents_getitem_found (n : string) (a : Agent) (e : Env) :
  Dict.get (agents e) n = Some a -> agents_getitem n e = (Return a, e).
Proof. intros H. unfold agents_getitem, bind, self. now rewrite H. Qed.

Lemma agents_getitem_missing (n : string) (e : Env) :
  Dict.get (agents e) n = None -> agents_getitem n e = (Raise (KeyError n), e).
Proof. intros H. unfold agents_getitem, bind, self. now rewrite H. Qed.

Lemma teleport_ready (n : string) (loc rot : option (list Q)) (e : Env) :
  _initial_reset e = true ->
  Dict.mem n (agents e) = true ->
  let e1 := enqueued (TeleportCommand n loc rot) e in
  teleport n loc rot e
  = match engine_tick (engine (_client e1)) (flushed_memory e1) with
    | Some (g, m) => (Return RetNone, after_tick g m e1)
    | None => (Raise HandshakeTimeout, stuck_tick e1)
    end.
Proof.
  intros Hr Hn e1. apply DictFacts.mem_get in Hn as [a Ha].
  unfold teleport.
  rewrite (bind_return _ _ e e a) by now apply agents_getitem_found.
  rewrite (bind_return _ _ e e1 tt) by reflexivity.
  unfold bind. rewrite (tick_ready e1) by exact Hr.
  destruct (engine_tick _ _) as [[g m]|]; reflexivity.
Qed.

Lemma set_state_ready (n : string) (loc rot vel ang : list Q) (e : Env) :
  _initial_reset e = true ->
  Dict.mem n (agents e) = true ->
  let e1 := enqueued (SetStateCommand n loc rot vel ang) e in
  set_state n loc rot vel ang e
  = match engine_tick (engine (_client e1)) (flushed_memory e1) with
    | Some (g, m) =>
        (Return (RetFull (full_state_of (after_tick g m e1))), after_tick g m e1)
    | None => (Raise HandshakeTimeout, stuck_tick e1)
    end.
Proof.
  intros Hr Hn e1. apply DictFacts.mem_get in Hn as [a Ha].
  unfold set_state.
  rewrite (bind_return _ _ e e a) by now apply agents_getitem_found.
  rewrite (bind_return _ _ e e1 tt) by reflexivity.
  now rewrite (tick_ready e1) by exact Hr.
Qed.

(** ** Reward and terminal of the main agent *)

Lemma state_dict_getitem_found (n : string) (d : Dict.t ndarray) (e : Env) :
  Dict.get (_state_dict e) n = Some d -> state_dict_getitem n e = (Return d, e).
Proof. intros H. unfold state_dict_getitem, bind, self. now rewrite H. Qed.

Lemma array_getitem_found (a : ndarray) (i : nat) (x : Q) (e : Env) :
  nth_error (contents (shm e) a) i = Some x -> array_getitem a i e = (Return x, e).
Proof. intros H. unfold array_getitem, bind, self. now rewrite H. Qed.

Lemma nth_error_within {A : Type} (l : list A) (i : nat) :
  (i < List.length l)%nat -> exists x, nth_error l i = Some x.
Proof.
  intros H. destruct (nth_error l i) eqn:E; [eauto|].
  apply nth_error_None in E. lia.
Qed.

Lemma last_opt_cons {A : Type} (x : A) (l : list A) : last_opt (x :: l) <> None.
Proof.
  revert x. induction l as [|y l IH]; intros x; [discriminate|].
  change (last_opt (x :: y :: l)) with (last_opt (y :: l)). apply IH.
Qed.

(** The loop over a stretch [items] of the state dict [d] ends with the
    reading of the last task sensor of the stretch, or with the values it
    started from when the stretch has none. *)
Lemma scan_sensors_last (e : Env) (n : string) (d : Dict.t ndarray) :
  Dict.get (_state_dict e) n = Some d ->
  forall (items : list (string * ndarray)) (reward : option Q)
         (terminal : option bool),
    (forall s a, In (s, a) items -> Dict.get d s = Some a) ->
    (forall s a, In (s, a) (task_sensors items) ->
                 (2 <= List.length (contents (shm e) a))%nat) ->
    exists reward' terminal',
      scan_sensors n (Dict.keys items) reward terminal e
      = (Return (reward', terminal'), e)
      /\ match last_opt (task_sensors items) with
         | None => reward' = reward /\ terminal' = terminal
         | Some (_, buffer) =>
             exists r t,
               nth_error (contents (shm e) buffer) 0 = Some r
               /\ nth_error (contents (shm e) buffer) 1 = Some t
               /\ reward' = Some r
               /\ terminal' = Some (Qeq_bool t 1)
         end.
Proof.
  intros Hd. induction items as [|[s a] items IH]; intros reward terminal Hget Hlen.
  - exists reward, terminal. split; [reflexivity | split; reflexivity].
  - cbn [Dict.keys map fst scan_sensors task_sensors filter] in *.
    assert (Hget' : forall s0 a0, In (s0, a0) items -> Dict.get d s0 = Some a0)
      by (intros; apply Hget; now right).
    destruct (str_contains "Task" s) eqn:Htask; rewrite ?Htask in Hlen.
    + destruct (nth_error_within (contents (shm e) a) 0) as [r Hr].
      { specialize (Hlen s a (or_introl eq_refl)). lia. }
      destruct (nth_error_within (contents (shm e) a) 1) as [t Ht].
      { specialize (Hlen s a (or_introl eq_refl)). lia. }
      rewrite (bind_return _ _ e e d) by now apply state_dict_getitem_found.
      rewrite (Hget s a (or_introl eq_refl)).
      rewrite (bind_return _ _ e e r) by now apply array_getitem_found.
      rewrite (bind_return _ _ e e t) by now apply array_getitem_found.
      destruct (IH (Some r) (Some (Qeq_bool t 1)) Hget') as (r' & t' & Hrun & Hlast).
      { intros s0 a0 Hin. apply (Hlen s0 a0). now right. }
      exists r', t'. split; [exact Hrun|].
      fold (task_sensors items) in *.
      destruct (task_sensors items) as [|kv rest] eqn:Hrest.
      * cbn [last_opt] in *. destruct Hlast as [-> ->].
        exists r, t. repeat split; assumption.
      * change (last_opt ((s, a) :: kv :: rest)) with (last_opt (kv :: rest)).
        destruct (last_opt (kv :: rest)) as [[s1 a1]|] eqn:Hl; [exact Hlast|].
        now apply last_opt_cons in Hl.
    + apply IH; assumption.
Qed.

Lemma items_get {V : Type} (d : Dict.t V) :
  NoDup (Dict.keys d) -> forall s a, In (s, a) d -> Dict.get d s = Some a.
Proof. intros Hnd s a Hin. now apply DictFacts.get_in. Qed.

(** C5: the single-agent state takes reward and terminal from the last
    sensor of the main agent, in the iteration order of its state dict,
    whose identifier contains [Task]: the reward is element 0 of that
    sensor's buffer and terminal tells whether element 1 equals 1; with no
    such sensor both are [None].  (Each task sensor is read as it is met, so
    each has to hold at least two elements.) *)
Theorem single_state_reads_last_task_sensor (e : Env) (n : string)
    (d : Dict.t ndarray) :
  _agent e = Some n ->
  Dict.get (_state_dict e) n = Some d ->
  NoDup (Dict.keys d) ->
  (forall s a, In (s, a) (task_sensors d) ->
               (2 <= List.length (contents (shm e) a))%nat) ->
  exists state reward terminal,
    _get_single_state e = (Return (RetSingle state reward terminal), e)
    /\ match last_opt (task_sensors d) with
       | None => reward = None /\ terminal = None
       | Some (_, buffer) =>
           exists r t,
             nth_error (contents (shm e) buffer) 0 = Some r
             /\ nth_error (contents (shm e) buffer) 1 = Some t
             /\ reward = Some r
             /\ terminal = Some (Qeq_bool t 1)
       end.
Proof.
  intros Hmain Hd Hnd Hlen.
  destruct (scan_sensors_last e n d Hd d None None (items_get d Hnd) Hlen)
    as (reward & terminal & Hrun & Hlast).
  unfold _get_single_state.
  assert (Hname : main_agent_name e = (Return n, e)).
  { unfold main_agent_name, bind, self. now rewrite Hmain. }
  rewrite (bind_return _ _ e e n) by exact Hname.
  rewrite (bind_return _ _ e e d) by now apply state_dict_getitem_found.
  rewrite (bind_return _ _ e e (reward, terminal)) by exact Hrun.
  eexists. exists reward, terminal. split; [reflexivity | exact Hlast].
Qed.

(** ** Copies and views *)

Lemma hoare_bind {A B : Type} (P R : Env -> Prop) (m : M A) (k : A -> M B)
    (Q : B -> Env -> Prop) :
  hoare P m (fun _ => R) -> (forall a, hoare R (k a) Q) -> hoare P (bind m k) Q.
Proof.
  intros Hm Hk e b e' HP Hrun.
  apply bind_inv in Hrun as (a & e1 & H1 & H2).
  exact (Hk a e1 b e' (Hm e a e1 HP H1) H2).
Qed.

Lemma hoare_preserves {A : Type} (P : Env -> Prop) (m : M A) :
  preserves P m -> hoare P m (fun _ => P).
Proof.
  intros Hm e a e' HP Hrun. specialize (Hm e HP). now rewrite Hrun in Hm.
Qed.

Lemma set_keeps_owned (cp : Dict.t ndarray) (k : string) (a : ndarray) :
  owned_only cp -> is_owned a -> owned_only (Dict.set cp k a).
Proof.
  unfold owned_only. intros Hcp Ha.
  induction cp as [|[k' a'] cp IH]; simpl.
  - repeat constructor. exact Ha.
  - inversion Hcp as [|? ? Hhd Htl]; subst.
    destruct (String.eqb k k'); constructor; auto.
Qed.

(** A copied state dict of an agent holds owned arrays only. *)
Lemma copy_owned_only (m : SharedMemory) (d : Dict.t ndarray) :
  owned_only (create_copy m d).
Proof.
  unfold create_copy, Copyable_dict.
  assert (Hgen : forall acc, owned_only acc ->
            owned_only
              (fold_left (fun cp kv => Dict.set cp (fst kv) (create_copy m (snd kv)))
                         d acc)).
  { induction d as [|kv d IH]; intros acc Hacc; simpl; [exact Hacc|].
    apply IH. apply set_keeps_owned; [exact Hacc | exact I]. }
  apply Hgen. constructor.
Qed.

Lemma set_keeps_all {V : Type} (P : V -> Prop) (cp : Dict.t V) (k : string) (v : V) :
  Forall (fun kv => P (snd kv)) cp -> P v ->
  Forall (fun kv => P (snd kv)) (Dict.set cp k v).
Proof.
  intros Hcp Hv. induction cp as [|[k' v'] cp IH]; simpl.
  - repeat constructor. exact Hv.
  - inversion Hcp as [|? ? Hhd Htl]; subst.
    destruct (String.eqb k k'); constructor; auto.
Qed.

Lemma copy_all_owned_only (m : SharedMemory) (sd : Dict.t (Dict.t ndarray)) :
  Forall (fun kv => owned_only (snd kv)) (create_copy m sd).
Proof.
  unfold create_copy at 1, Copyable_dict at 1.
  assert (Hgen : forall acc, Forall (fun kv => owned_only (snd kv)) acc ->
            Forall (fun kv => owned_only (snd kv))
              (fold_left (fun cp kv => Dict.set cp (fst kv) (create_copy m (snd kv)))
                         sd acc)).
  { induction sd as [|kv sd IH]; intros acc Hacc; simpl; [exact Hacc|].
    apply IH. apply set_keeps_all; [exact Hacc | apply copy_owned_only]. }
  apply Hgen. constructor.
Qed.




Lemma full_state_in_copy_mode :
  hoare (fun e : Env => _copy_state e = true) _get_full_state
        (fun s _ => self_contained (RetFull s)).
Proof.
  intros e s e' Hcopy. unfold _get_full_state, bind, self. rewrite Hcopy.
  intros [= <- <-]. apply copy_all_owned_only.
Qed.


Lemma step_ready (action : list Q) (e : Env) :
  _initial_reset e = true ->
  step action e
  = match _agent e with
    | Some agent =>
        let e1 := acted agent action e in
        match engine_tick (engine (_client e1)) (flushed_memory e1) with
        | Some (g, m) => _get_single_state (after_tick g m e1)
        | None => (Raise HandshakeTimeout, stuck_tick e1)
        end
    | None => tick e
    end.
Proof.
  intros H. unfold step. unfold bind at 1, self at 1. rewrite H. cbn [negb].
  destruct (_agent e) as [agent|].
  - rewrite (bind_return _ _ e (acted agent action e) tt) by reflexivity.
    set (e1 := acted agent action e).
    destruct e1 as [pre copy [mem g0] q ags sd n main fn ready tr].
    unfold after_tick, stuck_tick, tick_events, flushed_memory.
    cbv beta iota delta [bind self ret raise modify handle_buffer release acquire].
    cbn -[_get_single_state].
    destruct (engine_tick _ _) as [[g m]|]; cbn -[_get_single_state];
      rewrite <- ?app_assoc; reflexivity.
  - unfold tick. cbv beta iota delta [bind self]. rewrite H. reflexivity.
Qed.




(** ** Registration of agents *)

Lemma add_agents_runs (defs : list AgentDefinition) (e : Env) :
  _add_agents defs e = (Return tt, fold_left (fun e d => add_one d e) defs e).
Proof.
  unfold _add_agents. revert e. induction defs as [|d defs IH]; intros e.
  - reflexivity.
  - cbn [for_each fold_left].
    lazymatch goal with
    | |- bind ?m _ e = _ => assert (Hone : m e = (Return tt, add_one d e))
    end.
    { unfold add_one. unfold bind at 1, self at 1.
      destruct (Dict.mem (name d) (agents e)); [reflexivity|].
      unfold bind at 1, modify at 1.
      erewrite bind_return
        by (apply agents_getitem_found; cbn; apply DictFacts.get_set_same).
      reflexivity. }
    rewrite (bind_return _ _ e (add_one d e) tt) by exact Hone.
    apply IH.
Qed.

Lemma add_one_keeps_unique (d : AgentDefinition) (e : Env) :
  names_unique e -> names_unique (add_one d e).
Proof.
  unfold names_unique, add_one. intros [Ha Hs].
  destruct (Dict.mem (name d) (agents e)); cbn; [tauto|].
  split; now apply DictFacts.set_keeps_unique.
Qed.

(** A name that is registered keeps its agent and its state dict through
    [_add_agents], whatever the definitions. *)
Lemma add_one_keeps_entries (d : AgentDefinition) (e : Env) (n : string) :
  Dict.mem n (agents e) = true ->
  Dict.mem n (agents (add_one d e)) = true
  /\ Dict.get (agents (add_one d e)) n = Dict.get (agents e) n
  /\ Dict.get (_state_dict (add_one d e)) n = Dict.get (_state_dict e) n.
Proof.
  intros Hn. unfold add_one.
  destruct (Dict.mem (name d) (agents e)) eqn:Hd; cbn.
  - auto.
  - assert (Hne : n <> name d) by (intros ->; congruence).
    rewrite !DictFacts.get_set_other by exact Hne.
    repeat split; auto.
    unfold Dict.mem. rewrite DictFacts.get_set_other by exact Hne. exact Hn.
Qed.

Lemma add_agents_keep_entries (defs : list AgentDefinition) (e : Env) (n : string) :
  Dict.mem n (agents e) = true ->
  Dict.get (agents (snd (_add_agents defs e))) n = Dict.get (agents e) n
  /\ Dict.get (_state_dict (snd (_add_agents defs e))) n
     = Dict.get (_state_dict e) n.
Proof.
  rewrite add_agents_runs. cbn [snd]. revert e.
  induction defs as [|d defs IH]; intros e Hn; cbn [fold_left]; [auto|].
  destruct (add_one_keeps_entries d e n Hn) as (Hn' & Ha & Hs).
  destruct (IH (add_one d e) Hn') as [Ha' Hs'].
  split; congruence.
Qed.

Lemma add_agents_duplicate (d : AgentDefinition) (e : Env) :
  Dict.mem (name d) (agents e) = true ->
  _add_agents [d] e = (Return tt, printed duplicate_message e).
Proof.
  intros Hd. rewrite add_agents_runs. cbn [fold_left]. unfold add_one.
  now rewrite Hd.
Qed.

Lemma spawn_agent_duplicate (d : AgentDefinition) (loc : list Q) (e : Env) :
  Dict.mem (name d) (agents e) = true ->
  exists e',
    spawn_agent d loc e = (Return tt, e')
    /\ agents e' = agents e
    /\ _state_dict e' = _state_dict e
    /\ trace e' = trace e ++ [Printed duplicate_message]
    /\ _command_center e'
       = _command_center e
         ++ [SpawnAgentCommand loc (name d) (agent_type (type d))].
Proof.
  intros Hd. unfold spawn_agent.
  rewrite (bind_return _ _ e (printed duplicate_message e) tt)
    by now apply add_agents_duplicate.
  set (e1 := printed duplicate_message e).
  set (cmd := SpawnAgentCommand loc (name d) (agent_type (type d))).
  rewrite (bind_return _ _ e1 (enqueued cmd e1) tt) by reflexivity.
  unfold bind at 1, self at 1.
  destruct (_agent (enqueued cmd e1)) as [main|] eqn:Hmain.
  - eexists. split; [reflexivity|]. cbn. auto.
  - destruct (DictFacts.mem_get _ _ Hd) as [a Ha].
    rewrite (bind_return _ _ (enqueued cmd e1) (enqueued cmd e1) a)
      by (apply agents_getitem_found; exact Ha).
    eexists. split; [reflexivity|]. cbn. auto.
Qed.

Ltac unique_leaf :=
  unfold names_unique in *; cbn in *;
  repeat match goal with
         | |- context [match ?x with _ => _ end] => destruct x
         end;
  cbn in *;
  repeat match goal with
         | H : _ /\ _ |- _ => destruct H
         | |- _ /\ _ => split
         | |- NoDup (Dict.keys (Dict.set _ _ _)) => apply DictFacts.set_keeps_unique
         | |- NoDup (map fst (Dict.set _ _ _)) => apply DictFacts.set_keeps_unique
         end;
  try assumption.

Lemma run_keeps_names_unique (c : call) :
  preserves (fun e : Env => names_unique e) (run c).
Proof.
  destruct c; cbn [run]; unfold reset; walk; unique_leaf.
Qed.

Lemma init_names_unique (defs : list AgentDefinition) (pre : Z) (copy : bool)
    (client : HolodeckClient) :
  names_unique (snd (__init__ defs pre copy client)).
Proof.
  unfold __init__.
  match goal with
  | |- names_unique (snd (?m ?fresh)) =>
      assert (H : preserves (fun e : Env => names_unique e) m)
        by (walk; unique_leaf);
      apply (H fresh)
  end.
  split; constructor.
Qed.

(** C9: the names under which agents (and their state dicts) are registered
    are pairwise distinct when the constructor is done and stay so through
    every call; [_add_agents] never changes the agent nor the state dict
    found under a name that is already registered; a definition whose name is
    taken is reported on the output and not registered, by [_add_agents] and
    by [spawn_agent] alike ([spawn_agent] goes on to enqueue its spawn
    command). *)
Theorem agent_names_stay_unique :
  (forall defs pre copy (client : @HolodeckClient Engine),
     names_unique (snd (__init__ defs pre copy client)))
  /\ (forall c (e : Env), names_unique e -> names_unique (snd (run c e)))
  /\ (forall defs (e : Env) n,
        Dict.mem n (agents e) = true ->
        Dict.get (agents (snd (_add_agents defs e))) n = Dict.get (agents e) n
        /\ Dict.get (_state_dict (snd (_add_agents defs e))) n
           = Dict.get (_state_dict e) n)
  /\ (forall d (e : Env),
        Dict.mem (name d) (agents e) = true ->
        _add_agents [d] e = (Return tt, printed duplicate_message e))
  /\ (forall d loc (e : Env),
        Dict.mem (name d) (agents e) = true ->
        exists e',
          spawn_agent d loc e = (Return tt, e')
          /\ agents e' = agents e
          /\ _state_dict e' = _state_dict e
          /\ trace e' = trace e ++ [Printed duplicate_message]
          /\ _command_center e'
             = _command_center e
               ++ [SpawnAgentCommand loc (name d) (agent_type (type d))]).
Proof.
  split; [exact init_names_unique|].
  split; [intros c e; apply run_keeps_names_unique|].
  split; [exact add_agents_keep_entries|].
  split; [exact add_agents_duplicate | exact spawn_agent_duplicate].
Qed.

(** ** Reset *)

Lemma repeat_tick_runs (n : nat) (e : Env) :
  _initial_reset e = true -> repeat_n n tick e = ticks_from n e.
Proof.
  revert e. induction n as [|n IH]; intros e Hr; cbn [repeat_n ticks_from].
  - reflexivity.
  - unfold bind. rewrite (tick_ready e Hr).
    destruct (engine_tick _ _) as [[g m]|]; [|reflexivity].
    apply IH. exact Hr.
Qed.

Lemma with_ticks_same (a : Agent) :
  with_ticks_per_capture (get_ticks_per_capture a) a = a.
Proof. now destruct a. Qed.

Lemma with_agents_same (e : Env) : with_agents (agents e) e = e.
Proof. now destruct e. Qed.

(** Setting the rate an agent already has only enqueues the command. *)
Lemma set_ticks_per_capture_again (k : string) (a : Agent) (e : Env) :
  Dict.get (agents e) k = Some a ->
  valid_rate (get_ticks_per_capture a) = true ->
  set_ticks_per_capture k (get_ticks_per_capture a) e
  = (Return tt,
     enqueued (RGBCameraRateCommand k (get_ticks_per_capture a)) e).
Proof.
  intros Hk Hv. unfold set_ticks_per_capture.
  assert (Hb : negb (isinstance_int (get_ticks_per_capture a))
               || (int_value (get_ticks_per_capture a) <? 1)%Z = false).
  { unfold valid_rate in Hv. apply andb_true_iff in Hv as [-> Hv]. simpl.
    now apply negb_true_iff in Hv. }
  rewrite Hb. unfold bind at 1, self at 1.
  rewrite (DictFacts.get_some_mem _ _ _ Hk). cbn [negb].
  rewrite (bind_return _ _ e e a) by now apply agents_getitem_found.
  assert (Hset : Agent_set_ticks_per_capture k (get_ticks_per_capture a) e
                 = (Return tt, e)).
  { unfold Agent_set_ticks_per_capture, Agent_update, modify. rewrite Hk.
    rewrite with_ticks_same, (DictFacts.set_same_value _ _ _ Hk).
    now rewrite with_agents_same. }
  rewrite (bind_return _ _ e e tt) by exact Hset.
  reflexivity.
Qed.

Lemma reapplied_nil (e : Env) : reapplied [] e = e.
Proof. destruct e. unfold reapplied. cbn. now rewrite !app_nil_r. Qed.

Lemma reapplied_cons (kv : string * Agent) (ags : Dict.t Agent) (e : Env) :
  reapplied (kv :: ags) e = reapplied ags (reapplied [kv] e).
Proof.
  destruct e. unfold reapplied. cbn. now rewrite !app_nil_r, <- !app_assoc.
Qed.

(** One turn of the loop of [reset] on an agent that is registered. *)
Lemma reapply_one (k : string) (a : Agent) (e : Env) :
  Dict.get (agents e) k = Some a ->
  reapply_ticks_per_capture k e = (Return tt, reapplied [(k, a)] e).
Proof.
  intros Hk. unfold reapply_ticks_per_capture.
  rewrite (bind_return _ _ e e a) by now apply agents_getitem_found.
  unfold reapplied, rate_warnings, camera_rate_commands. cbn [flat_map fst snd].
  destruct (has_camera a); cbn [andb].
  - rewrite (bind_return _ _ e e a) by now apply agents_getitem_found.
    destruct (valid_rate (get_ticks_per_capture a)) eqn:Hv; cbn [negb].
    + rewrite (set_ticks_per_capture_again k a e Hk Hv).
      destruct e. unfold enqueued. cbn. now rewrite !app_nil_r.
    + rewrite (set_ticks_per_capture_invalid_rate k _ e Hv).
      destruct e. unfold printed, invalid_rate_message. cbn.
      now rewrite !app_nil_r.
  - destruct e. cbn. now rewrite !app_nil_r.
Qed.

Lemma reapply_all (e0 : Env) (items : Dict.t Agent) :
  forall e : Env,
    agents e = agents e0 ->
    (forall k a, In (k, a) items -> Dict.get (agents e0) k = Some a) ->
    for_each (Dict.keys items) reapply_ticks_per_capture e
    = (Return tt, reapplied items e).
Proof.
  induction items as [|[k a] items IH]; intros e He Hitems.
  - cbn. now rewrite reapplied_nil.
  - cbn [Dict.keys map fst for_each].
    assert (Hk : Dict.get (agents e) k = Some a).
    { rewrite He. apply Hitems. now left. }
    rewrite (bind_return _ _ e (reapplied [(k, a)] e) tt) by now apply reapply_one.
    rewrite (reapplied_cons (k, a) items e). apply IH; [exact He|].
    intros k' a' Hin. apply Hitems. now right.
Qed.

(** The settling ticks leave everything but the queue, the client and the
    trace as it was, whether they all return or one of them fails. *)
Lemma ticks_from_frame (n : nat) :
  forall (e e' : Env) (o : outcome unit),
    ticks_from n e = (o, e') ->
    agents e' = agents e
    /\ _state_dict e' = _state_dict e
    /\ _agent e' = _agent e
    /\ _default_state_fn e' = _default_state_fn e
    /\ _copy_state e' = _copy_state e
    /\ _pre_start_steps e' = _pre_start_steps e
    /\ _initial_reset e' = _initial_reset e
    /\ num_agents e' = num_agents e.
Proof.
  induction n as [|n IH]; intros e e' o; cbn [ticks_from].
  - intros [= <- <-]. repeat split.
  - destruct (engine_tick _ _) as [[g m]|].
    + intros H. apply IH in H. exact H.
    + intros [= <- <-]. repeat split.
Qed.

Lemma ticks_from_answered (n : nat) :
  always_answers ->
  forall e : Env, exists e', ticks_from n e = (Return tt, e').
Proof.
  intros Hans. induction n as [|n IH]; intros e; cbn [ticks_from].
  - eauto.
  - destruct (engine_tick _ _) as [[g m]|] eqn:Htick; [apply IH|].
    now apply Hans in Htick.
Qed.

(** What the settling ticks add to the trace, from an empty queue. *)
Lemma ticks_from_trace (n : nat) :
  forall e e' : Env,
    _command_center e = [] ->
    ticks_from n e = (Return tt, e') ->
    _command_center e' = []
    /\ exists evs,
         trace e' = trace e ++ evs
         /\ handshakes evs = n
         /\ flushed_batches evs = repeat [] n
         /\ hd_error (reset_flags_seen evs)
            = match n with O => None | S _ => Some (RESET (shm e)) end.
Proof.
  induction n as [|n IH]; intros e e' Hq; cbn [ticks_from].
  - intros [= <-]. split; [exact Hq|]. exists []. rewrite app_nil_r. auto.
  - destruct (engine_tick _ _) as [[g m]|]; [|discriminate].
    intros Hrun. apply IH in Hrun as (Hq' & evs & Htr & Hh & Hf & _);
      [|reflexivity].
    split; [exact Hq'|]. exists (tick_events e ++ evs).
    repeat split.
    + rewrite Htr. cbn [after_tick trace with_trace]. now rewrite <- app_assoc.
    + unfold tick_events. cbn. unfold handshakes in Hh. now rewrite Hh.
    + unfold tick_events. cbn. now rewrite Hf, Hq.
Qed.



(** [reset], statement by statement. *)
Lemma reset_runs (e : Env) :
  NoDup (Dict.keys (agents e)) ->
  reset e
  = match ticks_from (range (_pre_start_steps e + 1)) (reset_started e) with
    | (Return _, e2) => default_state (reapplied (agents e2) e2)
    | (Raise x, e2) => (Raise x, e2)
    end.
Proof.
  intros Hnd. unfold reset.
  rewrite (bind_return _ _ e (with_initial_reset true e) tt) by reflexivity.
  rewrite (bind_return _ _ (with_initial_reset true e)
             (with_memory (mkMem true (command_buffer (shm e))
                                 (action_buffers (shm e)) (sensor_data (shm e)))
                          (with_initial_reset true e)) tt) by reflexivity.
  rewrite (bind_return _ _ _ (reset_started e) tt) by reflexivity.
  rewrite (bind_return _ _ (reset_started e) (reset_started e) (reset_started e))
    by reflexivity.
  change (_pre_start_steps (reset_started e)) with (_pre_start_steps e).
  unfold bind at 1. rewrite repeat_tick_runs by reflexivity.
  destruct (ticks_from _ _) as [[[]|x] e2] eqn:Hticks; [|reflexivity].
  apply ticks_from_frame in Hticks as (Hags & _).
  rewrite (bind_return _ _ e2 e2 e2) by reflexivity.
  rewrite (bind_return _ _ e2 (reapplied (agents e2) e2) tt).
  2:{ apply reapply_all with (e0 := e2); [reflexivity|].
      intros k a Hin. apply DictFacts.get_in; [|exact Hin].
      rewrite Hags. exact Hnd. }
  set (e3 := reapplied (agents e2) e2).
  rewrite (bind_return _ _ e3 e3 e3) by reflexivity.
  unfold default_state. destruct (_default_state_fn e3); [reflexivity|].
  unfold _get_full_state, full_state_of.
  cbv beta iota delta [bind self ret]. now destruct (_copy_state e3).
Qed.

(** ** What the constructor fixes *)

Lemma init_fixes_settings (defs : list AgentDefinition) (pre : Z) (copy : bool)
    (client : HolodeckClient) :
  _pre_start_steps (snd (__init__ defs pre copy client)) = pre
  /\ _copy_state (snd (__init__ defs pre copy client)) = copy.
Proof.
  unfold __init__.
  match goal with
  | |- _ (snd (?m ?fresh)) = _ /\ _ =>
      assert (H1 : preserves (fun e : Env => _pre_start_steps e = pre) m)
        by (walk; untouched);
      assert (H2 : preserves (fun e : Env => _copy_state e = copy) m)
        by (walk; untouched);
      split; [exact (H1 fresh eq_refl) | exact (H2 fresh eq_refl)]
  end.
Qed.

(** The default state function is chosen from the number of agents that the
    constructor registered. *)
Lemma init_fixes_shape (defs : list AgentDefinition) (pre : Z) (copy : bool)
    (client : HolodeckClient) (e0 : Env) :
  __init__ defs pre copy client = (Return tt, e0) ->
  num_agents e0 = Dict.len (agents e0)
  /\ _default_state_fn e0
     = if (Dict.len (agents e0) =? 1)%nat
       then get_single_state_fn else get_full_state_fn.
Proof.
  unfold __init__. intros H.
  erewrite bind_return in H by apply add_agents_runs.
  match type of H with
  | context [fold_left ?f defs ?fresh] => set (ea := fold_left f defs fresh) in *
  end.
  cbv beta iota delta [bind self modify ret raise acquire agents_getitem] in H.
  cbn [num_agents with_num_agents agents] in H.
  destruct (0 <? Dict.len (agents ea))%nat.
  - destruct defs as [|d defs]; [discriminate|].
    cbn [agents with_num_agents] in H.
    destruct (Dict.get (agents ea) (name d)); [|discriminate].
    cbn in H. destruct (engine_tick _ _) as [[g m]|]; [|discriminate].
    injection H as <-. cbn. auto.
  - cbn in H. destruct (engine_tick _ _) as [[g m]|]; [|discriminate].
    injection H as <-. cbn. auto.
Qed.

Lemma run_all_preserves (P : Env -> Prop) (cs : list call) :
  (forall c, preserves P (run c)) -> forall e, P e -> P (run_all cs e).
Proof.
  intros Hrun. induction cs as [|c cs IH]; intros e He; cbn [run_all].
  - exact He.
  - apply IH. now apply Hrun.
Qed.

Lemma run_keeps_settings (c : call) (pre : Z) (n : nat) (fn : state_fn) :
  preserves (fun e : Env => _pre_start_steps e = pre
                            /\ num_agents e = n
                            /\ _default_state_fn e = fn) (run c).
Proof.
  destruct c; cbn [run]; unfold reset; walk; untouched.
Qed.

(** ** What [reset] leaves behind *)

Lemma get_single_state_read_only (e : Env) : snd (_get_single_state e) = e.
Proof.
  unfold _get_single_state, main_agent_name, state_dict_getitem.
  cbv beta iota delta [bind self ret raise].
  destruct (_agent e) as [n|]; [|reflexivity].
  destruct (Dict.get (_state_dict e) n) as [d|]; [|reflexivity].
  pose proof (scan_sensors_read_only n (Dict.keys d) None None e) as Hro.
  destruct (scan_sensors n (Dict.keys d) None None e) as [[rt|x] e2];
    simpl in Hro; subst e2; reflexivity.
Qed.

Lemma default_state_read_only (e : Env) : snd (default_state e) = e.
Proof.
  unfold default_state. destruct (_default_state_fn e);
    [apply get_single_state_read_only | reflexivity].
Qed.


(** The object that [reset] leaves once its settling ticks have all been
    answered. *)
Lemma reset_effect (e e2 : Env) :
  ticks_from (range (_pre_start_steps e + 1)) (reset_started e) = (Return tt, e2) ->
  let e' := reapplied (agents e2) e2 in
  _command_center e' = camera_rate_commands (agents e)
  /\ agents e' = agents e
  /\ _state_dict e' = _state_dict e
  /\ _initial_reset e' = true
  /\ _default_state_fn e' = _default_state_fn e
  /\ RESET (shm e') = RESET (shm e2)
  /\ exists settling,
       trace e' = trace e ++ settling ++ rate_warnings (agents e)
       /\ handshakes settling = range (_pre_start_steps e + 1)
       /\ flushed_batches settling = repeat [] (handshakes settling)
       /\ ((0 <= _pre_start_steps e)%Z ->
           hd_error (reset_flags_seen settling) = Some true).
Proof.
  intros Hticks e'.
  destruct (ticks_from_frame _ _ _ _ Hticks)
    as (Hags & Hsd & _ & Hfn & _ & _ & Hready & _).
  destruct (ticks_from_trace _ (reset_started e) e2 eq_refl Hticks)
    as (Hq & settling & Htr & Hh & Hf & Hflag).
  change (agents (reset_started e)) with (agents e) in Hags.
  change (_state_dict (reset_started e)) with (_state_dict e) in Hsd.
  change (_default_state_fn (reset_started e)) with (_default_state_fn e) in Hfn.
  change (_initial_reset (reset_started e)) with true in Hready.
  change (trace (reset_started e)) with (trace e) in Htr.
  change (RESET (shm (reset_started e))) with true in Hflag.
  subst e'. unfold reapplied. cbn [_command_center agents _state_dict
    _initial_reset _default_state_fn trace shm _client with_trace
    with_command_center].
  rewrite Hq, Hags. cbn [app].
  repeat split; try assumption.
  exists settling. rewrite Htr.
  rewrite <- app_assoc. repeat split; try assumption.
  - now rewrite Hh.
  - intros Hpre. rewrite Hflag. unfold range.
    destruct (Z.to_nat (_pre_start_steps e + 1)) eqn:Hn; [lia | reflexivity].
Qed.


(** ** Day, weather and capture rate *)

(** X1: [set_day_time] never raises; it appends exactly one [SetHour]
    command whose hour is the argument reduced modulo 24, a number from 0 to
    23 whatever the sign or size of the argument, and the argument itself
    when that is already an hour of the day. *)
Theorem set_day_time_wraps_hour (hour : Z) (e : Env) :
  exists h,
    set_day_time hour e
    = (Return tt, enqueued (CustomCommand "SetHour" [Finite (inject_Z h)] []) e)
    /\ (0 <= h < 24)%Z
    /\ (exists days, hour = days * 24 + h)%Z
    /\ ((0 <= hour < 24)%Z -> h = hour).
Proof.
  exists (hour mod 24)%Z. split; [reflexivity|].
  split; [apply Z.mod_pos_bound; lia|].
  split.
  - exists (hour / 24)%Z. rewrite Z.mul_comm. apply Z.div_mod. lia.
  - intros Hh. now apply Z.mod_small.
Qed.

(** X2: [start_day_cycle] raises on a day length of zero or less and then
    leaves the object as it was; on a positive length it appends exactly the
    command [SetDayCycle] with parameters [[1; day_length]].
    [stop_day_cycle] always appends [SetDayCycle] with [[0; -1]]. *)
Theorem day_cycle_commands (day_length : Z) (e : Env) :
  ((day_length <= 0)%Z ->
   start_day_cycle day_length e
   = (Raise (HolodeckException "The given day length should be between above 0!"),
      e))
  /\ ((0 < day_length)%Z ->
      start_day_cycle day_length e
      = (Return tt,
         enqueued (CustomCommand "SetDayCycle"
                     [Finite (1 # 1); Finite (inject_Z day_length)] []) e))
  /\ stop_day_cycle e
     = (Return tt,
        enqueued (CustomCommand "SetDayCycle"
                    [Finite (0 # 1); Finite (inject_Z (-1))] []) e).
Proof.
  unfold start_day_cycle. repeat split.
  - intros H. apply Z.leb_le in H. now rewrite H.
  - intros H. apply Z.leb_gt in H. now rewrite H.
Qed.

Lemma ascii_lower_idempotent (c : ascii) :
  ascii_lower (ascii_lower c) = ascii_lower c.
Proof.
  unfold ascii_lower.
  destruct ((65 <=? nat_of_ascii c)%nat && (nat_of_ascii c <=? 90)%nat) eqn:Hup.
  - apply andb_true_iff in Hup as [Hlo Hhi].
    apply Nat.leb_le in Hlo, Hhi.
    rewrite nat_ascii_embedding by lia.
    assert (Hno : (nat_of_ascii c + 32 <=? 90)%nat = false)
      by (apply Nat.leb_gt; lia).
    rewrite Hno, andb_false_r. reflexivity.
  - now rewrite Hup.
Qed.

Lemma str_lower_idempotent (s : string) : str_lower (str_lower s) = str_lower s.
Proof.
  induction s as [|c s IH]; simpl; [reflexivity|].
  now rewrite ascii_lower_idempotent, IH.
Qed.

Lemma str_in_spec (s : string) (l : list string) : str_in s l = true <-> In s l.
Proof.
  unfold str_in. rewrite existsb_exists. split.
  - intros (x & Hin & Heq). apply String.eqb_eq in Heq. now subst.
  - intros Hin. exists s. split; [exact Hin | apply String.eqb_refl].
Qed.

(** X3: [set_weather] compares the lower-cased argument with [rain] and
    [cloudy], so any capitalisation of the two passes, and the command it
    appends carries the string as the caller wrote it, not the lower-cased
    one; anything else raises with the argument in the message and leaves the
    object as it was. *)
Theorem set_weather_ignores_case (weather_type : string) (e : Env) :
  (str_lower weather_type = "rain" \/ str_lower weather_type = "cloudy" ->
   set_weather weather_type e
   = (Return tt, enqueued (CustomCommand "SetWeather" [] [weather_type]) e))
  /\ (str_lower weather_type <> "rain" /\ str_lower weather_type <> "cloudy" ->
      set_weather weather_type e
      = (Raise (HolodeckException ("Invalid weather type " ++ weather_type)), e))
  /\ set_weather (str_lower weather_type) e
     = match fst (set_weather weather_type e) with
       | Return _ =>
           (Return tt,
            enqueued (CustomCommand "SetWeather" [] [str_lower weather_type]) e)
       | Raise _ =>
           (Raise (HolodeckException
                     ("Invalid weather type " ++ str_lower weather_type)), e)
       end.
Proof.
  unfold set_weather. rewrite str_lower_idempotent.
  destruct (str_in (str_lower weather_type) ["rain"; "cloudy"]) eqn:Hin.
  - apply str_in_spec in Hin. cbn [negb]. repeat split.
    intros [H1 H2]. destruct Hin as [Hin|[Hin|[]]]; congruence.
  - cbn [negb]. repeat split.
    intros Hok. assert (Hin' : In (str_lower weather_type) ["rain"; "cloudy"]).
    { destruct Hok as [->| ->]; simpl; auto. }
    apply str_in_spec in Hin'. congruence.
Qed.

(** X4: [set_ticks_per_capture] never raises, and it does one of two things.
    With an [int] rate of at least 1 and a registered agent, it stores the
    rate in the agent and appends exactly one [RGBCameraRateCommand], printing
    nothing.  Otherwise it prints exactly one line and changes nothing else;
    the rate is checked first, so an invalid rate for an unknown agent is
    reported as an invalid rate. *)
Theorem set_ticks_per_capture_outcomes (n : string) (v : pyval) (e : Env) :
  (valid_rate v = true -> forall a, Dict.get (agents e) n = Some a ->
   set_ticks_per_capture n v e
   = (Return tt,
      enqueued (RGBCameraRateCommand n v)
        (with_agents (Dict.set (agents e) n (with_ticks_per_capture v a)) e)))
  /\ (valid_rate v = true -> Dict.get (agents e) n = None ->
      set_ticks_per_capture n v e = (Return tt, printed ("No such agent " ++ n) e))
  /\ (valid_rate v = false ->
      set_ticks_per_capture n v e = (Return tt, printed (invalid_rate_message v) e)).
Proof.
  repeat split.
  - intros Hv a Ha. unfold set_ticks_per_capture.
    assert (Hb : negb (isinstance_int v) || (int_value v <? 1)%Z = false).
    { unfold valid_rate in Hv. apply andb_true_iff in Hv as [-> Hv]. simpl.
      now apply negb_true_iff in Hv. }
    rewrite Hb. unfold bind at 1, self at 1.
    rewrite (DictFacts.get_some_mem _ _ _ Ha). cbn [negb].
    rewrite (bind_return _ _ e e a) by now apply agents_getitem_found.
    unfold bind, Agent_set_ticks_per_capture, Agent_update, modify.
    rewrite Ha. reflexivity.
  - intros Hv Ha. apply set_ticks_per_capture_unknown_agent; [exact Hv|].
    unfold Dict.mem. now rewrite Ha.
  - intros Hv. now apply set_ticks_per_capture_invalid_rate.
Qed.

(** ** Step, act and tick together *)

(** X5: on an environment that has been reset, [step] leaves the object
    exactly as [act] on the main agent followed by [tick] leaves it, whether
    the simulator answers or not, and when that tick returns, [step] returns
    what [_get_single_state] reads on the object after the tick.  Without a
    main agent (an environment built with no agents) [step] is [tick]. *)
Theorem step_is_act_then_tick (action : list Q) (e : Env) :
  _initial_reset e = true ->
  (forall n, _agent e = Some n -> Dict.mem n (agents e) = true ->
     exists e1,
       act n action e = (Return tt, e1)
       /\ snd (step action e) = snd (tick e1)
       /\ (forall r e2, tick e1 = (Return r, e2) ->
             step action e = _get_single_state e2))
  /\ (_agent e = None -> step action e = tick e).
Proof.
  intros Hready. split.
  - intros n Hmain Hn. exists (acted n action e).
    apply DictFacts.mem_get in Hn as [a Ha].
    assert (Hact : act n action e = (Return tt, acted n action e)).
    { unfold act. now rewrite (bind_return _ _ e e a)
        by now apply agents_getitem_found. }
    rewrite (step_ready action e Hready), Hmain. cbv zeta.
    rewrite (tick_ready (acted n action e) Hready).
    split; [exact Hact|].
    destruct (engine_tick _ _) as [[g m]|].
    + split; [apply get_single_state_read_only|].
      now intros r e2 [= _ <-].
    + split; [reflexivity | discriminate].
  - intros Hmain. now rewrite (step_ready action e Hready), Hmain.
Qed.

(** ** Ready for good *)

Lemma run_keeps_ready (c : call) :
  preserves (fun e : Env => _initial_reset e = true) (run c).
Proof.
  destruct c; try (apply run_keeps_initial_reset; discriminate).
  cbn [run]. unfold reset. walk; untouched.
Qed.

Lemma reset_makes_ready (e : Env) : _initial_reset (snd (reset e)) = true.
Proof.
  unfold reset. rewrite (bind_return _ _ e (with_initial_reset true e) tt)
    by reflexivity.
  match goal with
  | |- _initial_reset (snd (?m ?e1)) = true =>
      assert (H : preserves (fun e : Env => _initial_reset e = true) m)
        by (walk; untouched);
      exact (H e1 eq_refl)
  end.
Qed.

(** X6: there is no way back from a reset.  As soon as [reset] has been
    entered, even a [reset] that failed in one of its ticks, the object
    counts as reset through every later call, so [tick] and [step] get past
    their guard: with a simulator that answers, [tick] returns the full state
    mapping. *)
Theorem reset_is_for_good (e : Env) (cs : list call) :
  let e1 := run_all cs (snd (reset e)) in
  _initial_reset e1 = true
  /\ (always_answers ->
      exists e2, tick e1 = (Return (RetFull (full_state_of e2)), e2)).
Proof.
  intros e1.
  assert (Hready : _initial_reset e1 = true).
  { apply run_all_preserves; [apply run_keeps_ready | apply reset_makes_ready]. }
  split; [exact Hready|]. intros Hans. rewrite (tick_ready e1 Hready).
  destruct (engine_tick _ _) as [[g m]|] eqn:Htick; [eauto|].
  now apply Hans in Htick.
Qed.

(** ** Overrides on a missing agent or too early *)

(** X7: [teleport] and [set_state] look the agent up before anything else:
    an unknown name raises [KeyError] and leaves the object as it was, with
    nothing enqueued and no tick.  On a registered agent of an environment
    that has not been reset, the agent's method has already run when [tick]
    refuses: the call raises the ordering error with the override left in the
    command queue. *)
Theorem override_on_missing_agent_or_too_early (n : string)
    (loc rot : option (list Q)) (l r v w : list Q) (e : Env) :
  (Dict.mem n (agents e) = false ->
   teleport n loc rot e = (Raise (KeyError n), e)
   /\ set_state n l r v w e = (Raise (KeyError n), e))
  /\ (Dict.mem n (agents e) = true -> _initial_reset e = false ->
      teleport n loc rot e
      = (Raise (HolodeckException "You must call .reset() before .tick()"),
         enqueued (TeleportCommand n loc rot) e)
      /\ set_state n l r v w e
         = (Raise (HolodeckException "You must call .reset() before .tick()"),
            enqueued (SetStateCommand n l r v w) e)).
Proof.
  split.
  - intros Hn. unfold Dict.mem in Hn.
    destruct (Dict.get (agents e) n) eqn:Hget; [discriminate|].
    unfold teleport, set_state.
    split; apply bind_raise; now apply agents_getitem_missing.
  - intros Hn Hready. apply DictFacts.mem_get in Hn as [a Ha].
    unfold teleport, set_state.
    rewrite !(bind_return _ _ e e a) by now apply agents_getitem_found.
    split.
    + rewrite (bind_return _ _ e (enqueued (TeleportCommand n loc rot) e) tt)
        by reflexivity.
      apply bind_raise. now apply tick_not_ready.
    + rewrite (bind_return _ _ e (enqueued (SetStateCommand n l r v w) e) tt)
        by reflexivity.
      now apply tick_not_ready.
Qed.

(** ** The queue between two ticks *)

Lemma flushed_batches_app (t1 t2 : list event) :
  flushed_batches (t1 ++ t2) = flushed_batches t1 ++ flushed_batches t2.
Proof.
  induction t1 as [|ev t1 IH]; simpl; [reflexivity|].
  destruct ev; simpl; now rewrite ?IH.
Qed.

Lemma add_one_registers (d : AgentDefinition) (e : Env) :
  Dict.mem (name d) (agents (add_one d e)) = true.
Proof.
  unfold add_one. destruct (Dict.mem (name d) (agents e)) eqn:Hd; cbn.
  - exact Hd.
  - unfold Dict.mem. now rewrite DictFacts.get_set_same.
Qed.

(** [spawn_agent] always returns. *)
Lemma spawn_agent_runs (d : AgentDefinition) (loc : list Q) (e : Env) :
  spawn_agent d loc e = (Return tt, spawned d loc e).
Proof.
  unfold spawn_agent, spawned.
  rewrite (bind_return _ _ e (add_one d e) tt)
    by (rewrite add_agents_runs; reflexivity).
  set (cmd := SpawnAgentCommand loc (name d) (agent_type (type d))).
  rewrite (bind_return _ _ (add_one d e) (enqueued cmd (add_one d e)) tt)
    by reflexivity.
  cbv zeta. set (e1 := enqueued cmd (add_one d e)).
  unfold bind at 1, self at 1.
  destruct (_agent e1); [reflexivity|].
  destruct (DictFacts.mem_get _ _ (add_one_registers d e)) as [a Ha].
  now rewrite (bind_return _ _ e1 e1 a) by (apply agents_getitem_found; exact Ha).
Qed.

(** Splits on the lookups and tests that a method branches on, innermost
    first, and closes the facts about queue and trace that remain. *)
Ltac split_branches :=
  repeat (cbn;
          match goal with
          | |- context [match Dict.get ?d ?k with _ => _ end] =>
              destruct (Dict.get d k) eqn:?
          | |- context [if Dict.mem ?k ?d then _ else _] =>
              destruct (Dict.mem k d) eqn:?
          | |- context [match _agent ?e with _ => _ end] => destruct (_agent e)
          | |- context [if ?b then _ else _] => destruct b eqn:?
          end);
  cbn.

Ltac queue_facts :=
  cbn; rewrite ?flushed_batches_app; cbn; rewrite ?app_nil_r;
  repeat split; auto.

Ltac split_cases := split_branches; queue_facts.

Lemma quiet_call_appends (c : call) (e : Env) :
  ~ is_ticking c ->
  exists ks,
    _command_center (snd (run c e)) = _command_center e ++ ks
    /\ (List.length ks <= 1)%nat
    /\ flushed_batches (trace (snd (run c e))) = flushed_batches (trace e).
Proof.
  intros Hc.
  destruct c; try (exfalso; apply Hc; exact I); cbn [run]; unfold lift_unit.
  2:{ unfold bind. rewrite spawn_agent_runs.
      lazymatch goal with
      | |- context [spawned ?d ?l e] =>
          exists [SpawnAgentCommand l (name d) (agent_type (type d))]
      end.
      unfold spawned, add_one. split_cases. }
  all: cbv beta iota delta
         [bind self ret raise modify print enqueue_command _enqueue_command
          act agents_getitem Agent_act set_ticks_per_capture
          Agent_set_ticks_per_capture Agent_update send_world_command
          draw_line draw_arrow draw_box draw_point set_fog_density
          set_day_time start_day_cycle stop_day_cycle set_weather
          teleport_camera should_render_viewport set_render_quality
          set_control_scheme Agent_set_control_scheme set_sensor_enabled
          _sensor_map];
    split_branches;
    first [ exists []; solve [queue_facts]
          | eexists [_]; solve [queue_facts] ].
Qed.

Lemma quiet_calls_append (cs : list call) :
  Forall (fun c => ~ is_ticking c) cs ->
  forall e : Env,
    (exists ks,
       _command_center (run_all cs e) = _command_center e ++ ks
       /\ (List.length ks <= List.length cs)%nat)
    /\ flushed_batches (trace (run_all cs e)) = flushed_batches (trace e).
Proof.
  induction 1 as [|c cs Hc _ IH]; intros e; cbn [run_all].
  - split; [exists []; now rewrite app_nil_r | reflexivity].
  - destruct (quiet_call_appends c e Hc) as (k1 & Hq1 & Hl1 & Hf1).
    destruct (IH (snd (run c e))) as ((k2 & Hq2 & Hl2) & Hf2).
    split.
    + exists (k1 ++ k2). rewrite Hq2, Hq1, <- app_assoc. split; [reflexivity|].
      rewrite length_app. cbn [List.length]. lia.
    + now rewrite Hf2.
Qed.

(** X8: between two ticks the pending commands are only ever appended to.
    After any calls that do not tick, made on an environment that has been
    reset, the queue is the old queue followed by what the calls enqueued, at
    most one command per call, and nothing has been flushed meanwhile; the
    next [tick] that returns has flushed that whole queue as one batch, in
    that order, and has left the queue empty. *)
Theorem pending_commands_reach_the_next_tick (cs : list call) (e : Env) :
  Forall (fun c => ~ is_ticking c) cs ->
  _initial_reset e = true ->
  let e1 := run_all cs e in
  (exists ks,
     _command_center e1 = _command_center e ++ ks
     /\ (List.length ks <= List.length cs)%nat)
  /\ flushed_batches (trace e1) = flushed_batches (trace e)
  /\ forall r e2,
       tick e1 = (Return r, e2) ->
       flushed_batches (trace e2)
       = flushed_batches (trace e) ++ [_command_center e1]
       /\ _command_center e2 = [].
Proof.
  intros Hcs Hready e1. subst e1.
  destruct (quiet_calls_append cs Hcs e) as [Hq Hf].
  split; [exact Hq|]. split; [exact Hf|].
  intros r e2 Htick.
  assert (Hready1 : _initial_reset (run_all cs e) = true)
    by (apply run_all_preserves; [apply run_keeps_ready | exact Hready]).
  rewrite (tick_ready _ Hready1) in Htick.
  destruct (engine_tick _ _) as [[g m]|]; [|discriminate].
  injection Htick as _ <-. split; [|reflexivity].
  cbn [after_tick trace with_trace]. rewrite flushed_batches_app, Hf.
  reflexivity.
Qed.

(** ** The handshake *)

Lemma protocol_app (p : phase) (t1 t2 : list event) :
  protocol p (t1 ++ t2)
  = match protocol p t1 with
    | Some p' => protocol p' t2
    | None => None
    end.
Proof.
  revert p. induction t1 as [|ev t1 IH]; intros p; simpl; [reflexivity|].
  destruct ev, p; auto.
Qed.

Lemma protocol_printed (p p' : phase) (t : list event) (msg : string) :
  protocol p t = Some p' -> protocol p (t ++ [Printed msg]) = Some p'.
Proof. intros H. now rewrite protocol_app, H. Qed.

Lemma tick_keeps_protocol :
  always_answers ->
  preserves (fun e : Env => protocol EngineTurn (trace e) = Some ControllerTurn)
            tick.
Proof.
  intros Hans e He. destruct (_initial_reset e) eqn:Hready.
  - rewrite (tick_ready e Hready).
    destruct (engine_tick _ _) as [[g m]|] eqn:Htick;
      [|now apply Hans in Htick].
    cbn [snd after_tick trace with_trace]. now rewrite protocol_app, He.
  - now rewrite (tick_not_ready e Hready).
Qed.

Lemma step_keeps_protocol (action : list Q) :
  always_answers ->
  preserves (fun e : Env => protocol EngineTurn (trace e) = Some ControllerTurn)
            (step action).
Proof.
  intros Hans e He. destruct (_initial_reset e) eqn:Hready.
  - rewrite (step_ready action e Hready). destruct (_agent e) as [n|].
    + cbv zeta. destruct (engine_tick _ _) as [[g m]|] eqn:Htick;
        [|now apply Hans in Htick].
      rewrite get_single_state_read_only.
      cbn [after_tick trace with_trace acted with_memory with_client].
      now rewrite protocol_app, He.
    + now apply tick_keeps_protocol.
  - now rewrite (step_not_ready action e Hready).
Qed.

(** [walk], with the tactic [tac] tried first on every statement: for the
    statements that have to be taken as a whole. *)
Ltac walk_with tac :=
  repeat first
    [ tac
    | match goal with
      | |- preserves _ (ret _) => apply preserves_ret
      | |- preserves _ (raise _) => apply preserves_raise
      | |- preserves _ self => apply preserves_self
      | |- preserves _ (scan_sensors _ _ _ _) => apply preserves_scan_sensors
      | |- preserves _ (for_each _ _) => apply preserves_for_each; intros ?
      | |- preserves _ (repeat_n _ _) => apply preserves_repeat_n
      | |- preserves _ (bind _ _) => apply preserves_bind; [|intros ?]
      | |- preserves _ (modify _) => apply preserves_modify; intros ? ?
      | |- preserves _ (if ?b then _ else _) => destruct b
      | |- preserves _ (match ?x with _ => _ end) => destruct x
      end
    | progress unfold
        print, agents_getitem, enqueue_command, clear, reset_ptr_set,
        Agent_act, Agent_teleport, Agent_set_state,
        Agent_set_ticks_per_capture, Agent_set_control_scheme, Agent_update,
        _get_full_state, state_dict_getitem, array_getitem, main_agent_name,
        _get_single_state, _enqueue_command, lift_unit
    | progress unfold
        teleport, set_state, act, set_ticks_per_capture,
        reapply_ticks_per_capture, send_world_command, draw_line, draw_arrow,
        draw_box, draw_point, set_fog_density, set_day_time, start_day_cycle,
        stop_day_cycle, set_weather, teleport_camera, should_render_viewport,
        set_render_quality, set_control_scheme, set_sensor_enabled,
        _sensor_map ].

(** Closes the assignments that leave the trace alone or print a line. *)
Ltac trace_leaf :=
  cbn in *;
  repeat match goal with
         | |- context [match ?x with _ => _ end] => destruct x
         end;
  cbn in *;
  first [ assumption | apply protocol_printed; assumption ].

Lemma add_agents_keep_protocol (p p' : phase) (defs : list AgentDefinition) :
  preserves (fun e : Env => protocol p (trace e) = Some p') (_add_agents defs).
Proof.
  unfold _add_agents. walk; trace_leaf.
Qed.

Lemma run_keeps_protocol (c : call) :
  always_answers ->
  preserves (fun e : Env => protocol EngineTurn (trace e) = Some ControllerTurn)
            (run c).
Proof.
  intros Hans.
  destruct c; cbn [run];
    try (apply tick_keeps_protocol; exact Hans);
    try (apply step_keeps_protocol; exact Hans);
    unfold reset, spawn_agent;
    walk_with ltac:(first [ apply tick_keeps_protocol; exact Hans
                          | apply add_agents_keep_protocol ]);
    trace_leaf.
Qed.

Lemma init_ends_on_controller_turn (defs : list AgentDefinition) (pre : Z)
    (copy : bool) (client : HolodeckClient) (e0 : Env) :
  __init__ defs pre copy client = (Return tt, e0) ->
  protocol EngineTurn (trace e0) = Some ControllerTurn.
Proof.
  unfold __init__.
  match goal with
  | |- ?m ?fresh = _ -> _ =>
      intros H;
      apply (fun Hh : hoare (fun e : Env =>
                               protocol EngineTurn (trace e) = Some EngineTurn)
                            m
                            (fun _ e =>
                               protocol EngineTurn (trace e) = Some ControllerTurn)
             => Hh fresh tt e0 eq_refl H)
  end.
  repeat (apply hoare_bind
            with (R := fun e : Env => protocol EngineTurn (trace e) = Some EngineTurn);
          [ solve [ apply hoare_preserves;
                    walk_with ltac:(apply add_agents_keep_protocol); trace_leaf ]
          | intros ? ]).
  apply hoare_bind
    with (R := fun e : Env => protocol EngineTurn (trace e) = Some ControllerTurn).
  - intros e u e' He. unfold acquire, bind, self.
    destruct (engine_tick _ _) as [[g m]|]; [|discriminate].
    unfold modify. intros Heq. injection Heq as _ He'. subst e'.
    cbn [trace with_trace]. now rewrite protocol_app, He.
  - intros _ e u e' He. unfold modify. intros Heq.
    injection Heq as _ He'. subst e'. exact He.
Qed.

(** X9: with a simulator that answers, the two processes alternate
    strictly through the whole life of an environment.  In the trace of the
    constructor followed by any calls, every flush and every release happens
    while the controller holds the turn, every acquire follows a release (or
    the start of the simulator), and each call ends with the turn back at the
    controller. *)
Theorem handshake_alternates (defs : list AgentDefinition) (pre : Z)
    (copy : bool) (client : HolodeckClient) (e0 : Env) (cs : list call) :
  always_answers ->
  __init__ defs pre copy client = (Return tt, e0) ->
  protocol EngineTurn (trace (run_all cs e0)) = Some ControllerTurn.
Proof.
  intros Hans Hinit.
  apply run_all_preserves; [intros c; now apply run_keeps_protocol|].
  exact (init_ends_on_controller_turn _ _ _ _ _ Hinit).
Qed.

(** ** The state dict follows the agents *)

Lemma get_map_values {V W : Type} (g : V -> W) (d : Dict.t V) (k : string) :
  Dict.get (map (fun kv => (fst kv, g (snd kv))) d) k
  = option_map g (Dict.get d k).
Proof.
  induction d as [|[k' v] d IH]; simpl; [reflexivity|].
  destruct (String.eqb k k'); [reflexivity | exact IH].
Qed.

Lemma map_values_set {V W : Type} (g : V -> W) (d : Dict.t V) (k : string)
    (v : V) :
  map (fun kv => (fst kv, g (snd kv))) (Dict.set d k v)
  = Dict.set (map (fun kv => (fst kv, g (snd kv))) d) k (g v).
Proof.
  induction d as [|[k' v'] d IH]; simpl; [reflexivity|].
  destruct (String.eqb k k'); simpl; [reflexivity | now rewrite IH].
Qed.

Lemma mem_set {V : Type} (d : Dict.t V) (k n : string) (v : V) :
  Dict.mem n d = true -> Dict.mem n (Dict.set d k v) = true.
Proof.
  intros Hn. unfold Dict.mem. destruct (String.eqb_spec n k) as [->|Hne].
  - now rewrite DictFacts.get_set_same.
  - rewrite DictFacts.get_set_other by exact Hne. exact Hn.
Qed.

Lemma agent_update_keeps_mirrors (n : string) (f : Agent -> Agent) :
  (forall a, agent_state_dict (f a) = agent_state_dict a) ->
  preserves (fun e : Env => mirrors e) (Agent_update n f).
Proof.
  intros Hf e [Hsd Hmain]. unfold Agent_update, modify. cbn [snd].
  destruct (Dict.get (agents e) n) as [a|] eqn:Ha; [|now split].
  split; cbn.
  - rewrite map_values_set, Hf, Hsd. symmetry. apply DictFacts.set_same_value.
    rewrite get_map_values, Ha. reflexivity.
  - intros m Hm. apply mem_set. now apply Hmain.
Qed.

Lemma add_one_keeps_mirrors (d : AgentDefinition) (e : Env) :
  mirrors e -> mirrors (add_one d e).
Proof.
  intros [Hsd Hmain]. unfold add_one.
  destruct (Dict.mem (name d) (agents e)) eqn:Hd; [now split|].
  split; cbn.
  - now rewrite map_values_set, Hsd.
  - intros m Hm. apply mem_set. now apply Hmain.
Qed.

Lemma add_agents_keep_mirrors (defs : list AgentDefinition) :
  preserves (fun e : Env => mirrors e) (_add_agents defs).
Proof.
  intros e He. rewrite add_agents_runs. cbn [snd]. revert e He.
  induction defs as [|d defs IH]; intros e He; cbn [fold_left]; [exact He|].
  apply IH. now apply add_one_keeps_mirrors.
Qed.

Lemma spawn_agent_keeps_mirrors (d : AgentDefinition) (loc : list Q) :
  preserves (fun e : Env => mirrors e) (spawn_agent d loc).
Proof.
  intros e He. rewrite spawn_agent_runs. cbn [snd]. unfold spawned.
  pose proof (add_one_keeps_mirrors d e He) as [Hsd Hmain].
  pose proof (add_one_registers d e) as Hreg.
  cbv zeta. destruct (_agent (enqueued _ (add_one d e))) eqn:Hag.
  - split; [exact Hsd | exact Hmain].
  - split; [exact Hsd|]. cbn. intros m [= <-]. exact Hreg.
Qed.

(** Choosing a registered agent as the main agent. *)
Lemma choose_main_keeps_mirrors (n : string) :
  preserves (fun e : Env => mirrors e)
            (bind (agents_getitem n) (fun _ => modify (with_agent (Some n)))).
Proof.
  intros e [Hsd Hmain].
  cbv beta iota delta [bind agents_getitem self ret raise modify].
  destruct (Dict.get (agents e) n) as [a|] eqn:Ha; [|now split].
  split; [exact Hsd|]. cbn. intros m [= <-]. unfold Dict.mem. now rewrite Ha.
Qed.

Ltac mirrors_whole :=
  match goal with
  | |- preserves _ (_add_agents _) => apply add_agents_keep_mirrors
  | |- preserves _ (spawn_agent _ _) => apply spawn_agent_keeps_mirrors
  | |- preserves _ (Agent_set_ticks_per_capture _ _) =>
      apply agent_update_keeps_mirrors; intros []; reflexivity
  | |- preserves _ (Agent_set_control_scheme _ _) =>
      apply agent_update_keeps_mirrors; intros []; reflexivity
  | |- preserves _ (bind (agents_getitem ?n)
                         (fun _ => modify (with_agent (Some ?n)))) =>
      apply choose_main_keeps_mirrors
  end.

Ltac mirrors_leaf :=
  cbv beta in *; unfold mirrors in *;
  match goal with
  | H : _ /\ _ |- _ => destruct H as [? ?]; split; cbn in *; try assumption
  end;
  try discriminate; try (intros ? ?; discriminate).

Lemma tick_keeps_mirrors : preserves (fun e : Env => mirrors e) tick.
Proof. unfold tick. walk; mirrors_leaf. Qed.

Lemma acquire_keeps_mirrors : preserves (fun e : Env => mirrors e) acquire.
Proof. unfold acquire. walk; mirrors_leaf. Qed.

Lemma step_keeps_mirrors (action : list Q) :
  preserves (fun e : Env => mirrors e) (step action).
Proof. unfold step. walk; mirrors_leaf. Qed.

Lemma run_keeps_mirrors (c : call) :
  preserves (fun e : Env => mirrors e) (run c).
Proof.
  destruct c; cbn [run];
    try apply tick_keeps_mirrors; try apply step_keeps_mirrors;
    unfold reset;
    walk_with ltac:(first [ apply tick_keeps_mirrors | mirrors_whole ]);
    mirrors_leaf.
Qed.

Lemma init_mirrors (defs : list AgentDefinition) (pre : Z) (copy : bool)
    (client : HolodeckClient) :
  mirrors (snd (__init__ defs pre copy client)).
Proof.
  unfold __init__.
  match goal with
  | |- mirrors (snd (?m ?fresh)) =>
      assert (H : preserves (fun e : Env => mirrors e) m)
        by (walk_with ltac:(first [ apply acquire_keeps_mirrors
                                  | mirrors_whole ]);
            mirrors_leaf);
      apply (H fresh)
  end.
  split; [reflexivity | discriminate].
Qed.

(** X10: in the object that the constructor built, and after any calls,
    [_state_dict] lists the registered agents in their order, each with the
    agent's own state dict, and the main agent, when there is one, is
    registered: looking it up in either dictionary succeeds. *)
Theorem state_dict_follows_agents (defs : list AgentDefinition) (pre : Z)
    (copy : bool) (client : HolodeckClient) (cs : list call) :
  let e := run_all cs (snd (__init__ defs pre copy client)) in
  Dict.keys (_state_dict e) = Dict.keys (agents e)
  /\ (forall n a, Dict.get (agents e) n = Some a ->
        Dict.get (_state_dict e) n = Some (agent_state_dict a))
  /\ (forall n, _agent e = Some n ->
        exists a, Dict.get (agents e) n = Some a
                  /\ Dict.get (_state_dict e) n = Some (agent_state_dict a)).
Proof.
  intros e.
  assert (Hm : mirrors e).
  { apply run_all_preserves; [apply run_keeps_mirrors | apply init_mirrors]. }
  destruct Hm as [Hsd Hmain].
  assert (Hget : forall n a, Dict.get (agents e) n = Some a ->
                   Dict.get (_state_dict e) n = Some (agent_state_dict a)).
  { intros n a Ha. now rewrite Hsd, get_map_values, Ha. }
  split.
  - rewrite Hsd. unfold Dict.keys. rewrite map_map. reflexivity.
  - split; [exact Hget|]. intros n Hn.
    destruct (DictFacts.mem_get _ _ (Hmain n Hn)) as [a Ha]. eauto.
Qed.

(** ** Spawning *)

(** X11: [spawn_agent] with a name that is free always returns: the agent
    and its state dict are registered at the end of the two dictionaries at
    once, exactly one [SpawnAgentCommand] with the definition's name and type
    is appended to the queue, and there is no tick.  The spawned agent becomes
    the main agent only if there was none.  The agent count and the default
    state function chosen by the constructor do not follow. *)
Theorem spawn_agent_registers (d : AgentDefinition) (loc : list Q) (e : Env) :
  Dict.mem (name d) (agents e) = false ->
  exists e',
    spawn_agent d loc e = (Return tt, e')
    /\ agents e' = agents e ++ [(name d, build_agent d)]
    /\ Dict.get (_state_dict e') (name d) = Some (agent_state_dict (build_agent d))
    /\ _command_center e'
       = _command_center e
         ++ [SpawnAgentCommand loc (name d) (agent_type (type d))]
    /\ _agent e' = match _agent e with
                   | Some main => Some main
                   | None => Some (name d)
                   end
    /\ num_agents e' = num_agents e
    /\ _default_state_fn e' = _default_state_fn e
    /\ trace e' = trace e
    /\ _client e' = _client e.
Proof.
  intros Hfree. exists (spawned d loc e). split; [apply spawn_agent_runs|].
  unfold spawned, add_one. rewrite Hfree. cbv zeta.
  cbn [_agent enqueued registered with_command_center with_state_dict with_agents].
  destruct (_agent e) as [main|] eqn:Hmain; cbn;
    rewrite (DictFacts.set_absent _ _ _ Hfree), DictFacts.get_set_same;
    repeat split; exact Hmain.
Qed.

(** ** Snapshots *)

Lemma copy_dict_from {V : Type} `{Copyable V} (m : SharedMemory) (d : Dict.t V) :
  forall acc : Dict.t V,
    NoDup (Dict.keys acc ++ Dict.keys d) ->
    fold_left (fun cp kv => Dict.set cp (fst kv) (create_copy m (snd kv))) d acc
    = acc ++ map (fun kv => (fst kv, create_copy m (snd kv))) d.
Proof.
  induction d as [|[k v] d IH]; intros acc Hnd; cbn [fold_left map fst snd].
  - now rewrite app_nil_r.
  - cbn [Dict.keys map fst] in Hnd.
    assert (Hk : Dict.mem k acc = false).
    { apply DictFacts.mem_false_not_in. intros Hin.
      apply NoDup_remove_2 in Hnd. apply Hnd. apply in_or_app. now left. }
    rewrite (DictFacts.set_absent _ _ _ Hk).
    rewrite IH.
    + now rewrite <- app_assoc.
    + unfold Dict.keys in *. rewrite map_app, <- app_assoc. exact Hnd.
Qed.

(** A dictionary with distinct keys is copied key by key, in order. *)
Lemma copy_dict_is_map {V : Type} `{Copyable V} (m : SharedMemory) (d : Dict.t V) :
  NoDup (Dict.keys d) ->
  create_copy m d = map (fun kv => (fst kv, create_copy m (snd kv))) d.
Proof.
  intros Hnd. unfold create_copy at 1, Copyable_dict.
  now rewrite copy_dict_from.
Qed.

Lemma observe_copied_agent (m m' : SharedMemory) (d : Dict.t ndarray) :
  NoDup (Dict.keys d) ->
  observe_agent m' (create_copy m d) = observe_agent m d.
Proof.
  intros Hnd. rewrite (copy_dict_is_map m d Hnd).
  unfold observe_agent. rewrite map_map. reflexivity.
Qed.

Lemma observe_copied_all (m m' : SharedMemory) (sd : Dict.t (Dict.t ndarray)) :
  NoDup (Dict.keys sd) ->
  (forall n d, In (n, d) sd -> NoDup (Dict.keys d)) ->
  observe_all m' (create_copy m sd) = observe_all m sd.
Proof.
  intros Hnd Hin. rewrite (copy_dict_is_map m sd Hnd).
  unfold observe_all. rewrite map_map. apply map_ext_in.
  intros [n d] Hd. cbn [fst snd]. f_equal.
  apply observe_copied_agent. exact (Hin n d Hd).
Qed.

(** X12: in copy mode a [tick] returns a snapshot.  With distinct agent
    names and distinct sensor names per agent, what [tick] returned reads,
    at any later moment and whatever has happened to the object and to the
    shared memory since, as the agents' sensors read when [tick]
    returned, with the same agents and sensors in the same order. *)
Theorem tick_returns_a_snapshot (e e' later : Env) (r : retval) :
  _copy_state e = true ->
  NoDup (Dict.keys (_state_dict e)) ->
  (forall n d, In (n, d) (_state_dict e) -> NoDup (Dict.keys d)) ->
  tick e = (Return r, e') ->
  observe later r = ObsFull (observe_all (shm e') (_state_dict e')).
Proof.
  intros Hcopy Hnd Hin Hrun. destruct (_initial_reset e) eqn:Hready.
  - rewrite (tick_ready e Hready) in Hrun.
    destruct (engine_tick _ _) as [[g m]|]; [|discriminate].
    injection Hrun as <- <-. unfold full_state_of.
    cbn [_copy_state after_tick with_trace with_client with_command_center
         _state_dict shm _client memory].
    rewrite Hcopy. cbn [observe]. f_equal.
    now apply observe_copied_all.
  - rewrite (tick_not_ready e Hready) in Hrun. discriminate.
Qed.

(** ** The constructor *)

Lemma mem_is_str_in {V : Type} (k : string) (d : Dict.t V) :
  Dict.mem k d = str_in k (Dict.keys d).
Proof.
  unfold Dict.mem, str_in. induction d as [|[k' v] d IH]; simpl; [reflexivity|].
  destruct (String.eqb k k'); [reflexivity | exact IH].
Qed.

Lemma first_names_length (seen : list string) (defs : list AgentDefinition) :
  (List.length (first_names seen defs) <= List.length defs)%nat.
Proof.
  revert seen. induction defs as [|d defs IH]; intros seen; simpl; [lia|].
  destruct (str_in (name d) seen); simpl.
  - specialize (IH seen). lia.
  - specialize (IH (seen ++ [name d])). lia.
Qed.

(** What [_add_agents] leaves: each name registered once, at its first
    definition, and one error line for every other definition. *)
Lemma add_all_registers (defs : list AgentDefinition) :
  forall e : Env,
    let e' := fold_left (fun e d => add_one d e) defs e in
    Dict.keys (agents e')
    = Dict.keys (agents e) ++ first_names (Dict.keys (agents e)) defs
    /\ trace e'
       = trace e
         ++ repeat (Printed duplicate_message)
              (List.length defs
               - List.length (first_names (Dict.keys (agents e)) defs))
    /\ _command_center e' = _command_center e
    /\ _client e' = _client e
    /\ _pre_start_steps e' = _pre_start_steps e
    /\ _copy_state e' = _copy_state e.
Proof.
  induction defs as [|d defs IH]; intros e; cbn [fold_left first_names].
  - cbn. rewrite !app_nil_r. repeat split.
  - destruct (IH (add_one d e)) as (Hk & Ht & Hq & Hc & Hp & Hcp).
    cbv zeta. rewrite Hk, Ht, Hq, Hc, Hp, Hcp. clear Hk Ht Hq Hc Hp Hcp IH.
    rewrite <- mem_is_str_in. unfold add_one.
    destruct (Dict.mem (name d) (agents e)) eqn:Hd.
    + cbn [agents trace printed with_trace _command_center _client
           _pre_start_steps _copy_state].
      repeat split.
      pose proof (first_names_length (Dict.keys (agents e)) defs) as Hlen.
      rewrite <- app_assoc. f_equal.
      replace (List.length (d :: defs)
               - List.length (first_names (Dict.keys (agents e)) defs))%nat
        with (S (List.length defs
                 - List.length (first_names (Dict.keys (agents e)) defs)))
        by (cbn [List.length]; lia).
      reflexivity.
    + cbn [agents trace registered with_state_dict with_agents _command_center
           _client _pre_start_steps _copy_state].
      rewrite (DictFacts.keys_set_absent _ _ _ Hd), <- app_assoc.
      repeat split.
Qed.

(** X13: with a simulator that answers, the constructor returns for every
    list of definitions.  Each name is registered once, in the order of first
    occurrence, and every further definition of a name already taken costs
    one error line and nothing else; the agent count is the number of distinct
    names; the main agent is the one of the first definition, if there is
    any; nothing is enqueued and the object is not yet reset.  The lines
    printed are followed in the trace by the single acquire that waits for
    the simulator. *)
Theorem init_registers_each_name_once (defs : list AgentDefinition) (pre : Z)
    (copy : bool) (client : HolodeckClient) :
  always_answers ->
  exists e0,
    __init__ defs pre copy client = (Return tt, e0)
    /\ Dict.keys (agents e0) = first_names [] defs
    /\ num_agents e0 = List.length (first_names [] defs)
    /\ _agent e0 = option_map name (hd_error defs)
    /\ trace e0
       = repeat (Printed duplicate_message)
                (List.length defs - List.length (first_names [] defs))
         ++ [Acquired]
    /\ _command_center e0 = []
    /\ _initial_reset e0 = false.
Proof.
  intros Hans. unfold __init__.
  match goal with
  | |- context [bind (_add_agents defs) _ ?fresh] =>
      set (e := fresh);
      rewrite (bind_return _ _ e (fold_left (fun e d => add_one d e) defs e) tt)
        by apply add_agents_runs;
      destruct (add_all_registers defs e) as (Hk & Ht & Hq & Hc & _ & _);
      cbv zeta in Hk, Ht, Hq, Hc;
      set (ea := fold_left (fun e d => add_one d e) defs e) in *
  end.
  change (Dict.keys (agents e)) with (@nil string) in Hk, Ht.
  change (trace e) with (@nil event) in Ht.
  change (_command_center e) with (@nil Command) in Hq.
  cbn [app] in Hk, Ht.
  rewrite (bind_return _ _ ea ea ea) by reflexivity.
  rewrite (bind_return _ _ ea (with_num_agents (Dict.len (agents ea)) ea) tt)
    by reflexivity.
  set (e1 := with_num_agents (Dict.len (agents ea)) ea).
  rewrite (bind_return _ _ e1 e1 e1) by reflexivity.
  assert (Hnum : num_agents e1 = List.length (first_names [] defs)).
  { cbn [e1 num_agents with_num_agents]. unfold Dict.len.
    rewrite <- Hk. unfold Dict.keys. now rewrite length_map. }
  assert (Hmain : exists e2,
            (if (0 <? num_agents e1)%nat
             then match defs with
                  | [] => raise IndexError
                  | d :: _ =>
                      bind (agents_getitem (name d))
                           (fun _ => modify (with_agent (Some (name d))))
                  end
             else modify (with_agent None)) e1 = (Return tt, e2)
            /\ e2 = with_agent (option_map name (hd_error defs)) e1).
  { rewrite Hnum. destruct defs as [|d defs'].
    - cbn. eexists. split; reflexivity.
    - cbn [first_names str_in existsb List.length Nat.ltb Nat.leb hd_error
           option_map].
      assert (Hin : Dict.mem (name d) (agents e1) = true).
      { apply DictFacts.mem_in_keys.
        change (agents e1) with (agents ea). rewrite Hk.
        cbn [first_names str_in existsb]. now left. }
      apply DictFacts.mem_get in Hin as [a Ha].
      eexists. split; [|reflexivity].
      now rewrite (bind_return _ _ e1 e1 a) by now apply agents_getitem_found. }
  destruct Hmain as (e2 & Hrun2 & He2).
  rewrite (bind_return _ _ e1 e2 tt) by exact Hrun2.
  rewrite (bind_return _ _ e2 e2 e2) by reflexivity.
  match goal with
  | |- context [modify (with_default_state_fn ?fn)] =>
      rewrite (bind_return _ _ e2 (with_default_state_fn fn e2) tt) by reflexivity;
      set (e3 := with_default_state_fn fn e2)
  end.
  unfold bind at 1. unfold acquire at 1. unfold bind at 1, self at 1.
  destruct (engine_tick (engine (_client e3)) (shm e3)) as [[g m]|] eqn:Htick;
    [|now apply Hans in Htick].
  eexists. split; [reflexivity|].
  subst e3 e2 e1. cbn. rewrite Hq, Ht.
  repeat split; assumption.
Qed.

(** ** Reference mode *)

(** X14: in reference mode [tick] hands out the object's own state
    dictionary, not a copy.  What the caller reads through it at a later
    moment is the shared memory of that moment, and an agent spawned after the
    tick shows up in the mapping that the tick returned. *)
Theorem reference_state_is_live (e e' later : Env) (r : retval)
    (d : AgentDefinition) (loc : list Q) :
  _copy_state e = false ->
  tick e = (Return r, e') ->
  r = RetFull SharedStateDict
  /\ observe later r = ObsFull (observe_all (shm later) (_state_dict later))
  /\ (Dict.mem (name d) (agents e') = false ->
      exists sensors_now,
        observe (snd (spawn_agent d loc e')) r = ObsFull sensors_now
        /\ Dict.get sensors_now (name d)
           = Some (observe_agent (shm e') (agent_state_dict (build_agent d)))).
Proof.
  intros Hcopy Hrun. destruct (_initial_reset e) eqn:Hready.
  - rewrite (tick_ready e Hready) in Hrun.
    destruct (engine_tick _ _) as [[g m]|]; [|discriminate].
    injection Hrun as <- <-. unfold full_state_of.
    cbn [_copy_state after_tick with_trace with_client with_command_center].
    rewrite Hcopy. split; [reflexivity|]. split; [reflexivity|].
    intros Hfree. rewrite spawn_agent_runs. cbn [snd observe].
    eexists. split; [reflexivity|].
    unfold spawned, add_one. rewrite Hfree. cbv zeta.
    match goal with
    | |- context [match ?x with Some _ => _ | None => _ end] =>
        destruct x
    end; cbn; unfold observe_all; rewrite get_map_values;
      now rewrite DictFacts.get_set_same.
  - rewrite (tick_not_ready e Hready) in Hrun. discriminate.
Qed.

(** ** Edges of reset and of the single state *)

(** X15: with [pre_start_steps] of -1 or less the range of [reset] is
    empty: [reset] performs no tick at all.  It raises the reset flag,
    drops the pending commands, applies the capture rates again and returns
    the default state of the object as it is, and the trace grows by nothing
    but the warnings about invalid rates. *)
Theorem reset_without_settling_tick (e : Env) :
  (_pre_start_steps e <= -1)%Z ->
  NoDup (Dict.keys (agents e)) ->
  let e' := reapplied (agents e) (reset_started e) in
  reset e = default_state e'
  /\ trace e' = trace e ++ rate_warnings (agents e)
  /\ _command_center e' = camera_rate_commands (agents e)
  /\ RESET (shm e') = true
  /\ engine (_client e') = engine (_client e).
Proof.
  intros Hpre Hnd e'. rewrite (reset_runs e Hnd).
  assert (Hn : range (_pre_start_steps e + 1) = O) by (unfold range; lia).
  rewrite Hn. cbn [ticks_from]. repeat split.
Qed.

Lemma array_getitem_outside (a : ndarray) (i : nat) (e : Env) :
  (List.length (contents (shm e) a) <= i)%nat ->
  array_getitem a i e = (Raise IndexError, e).
Proof.
  intros H. unfold array_getitem, bind, self.
  apply nth_error_None in H. now rewrite H.
Qed.

Lemma scan_sensors_short (e : Env) (n : string) (d : Dict.t ndarray) :
  Dict.get (_state_dict e) n = Some d ->
  forall (items : list (string * ndarray)) (reward : option Q)
         (terminal : option bool),
    (forall s a, In (s, a) items -> Dict.get d s = Some a) ->
    (exists s a, In (s, a) (task_sensors items)
                 /\ (List.length (contents (shm e) a) < 2)%nat) ->
    scan_sensors n (Dict.keys items) reward terminal e = (Raise IndexError, e).
Proof.
  intros Hd. induction items as [|[s a] items IH];
    intros reward terminal Hget (s0 & a0 & Hin & Hshort).
  - destruct Hin.
  - cbn [Dict.keys map fst scan_sensors task_sensors filter] in *.
    assert (Hget' : forall s1 a1, In (s1, a1) items -> Dict.get d s1 = Some a1)
      by (intros; apply Hget; now right).
    destruct (str_contains "Task" s) eqn:Htask.
    + rewrite (bind_return _ _ e e d) by now apply state_dict_getitem_found.
      rewrite (Hget s a (or_introl eq_refl)).
      destruct (nth_error (contents (shm e) a) 0) as [r|] eqn:Hr.
      * rewrite (bind_return _ _ e e r) by now apply array_getitem_found.
        destruct (nth_error (contents (shm e) a) 1) as [t|] eqn:Ht.
        -- rewrite (bind_return _ _ e e t) by now apply array_getitem_found.
           apply IH; [exact Hget'|].
           destruct Hin as [Heq|Hin]; [|now exists s0, a0].
           injection Heq as <- <-.
           assert (Hlen : (1 < List.length (contents (shm e) a))%nat)
             by (apply nth_error_Some; congruence).
           lia.
        -- apply bind_raise. apply array_getitem_outside.
           now apply nth_error_None.
      * apply bind_raise. apply array_getitem_outside. now apply nth_error_None.
    + apply IH; [exact Hget'|]. now exists s0, a0.
Qed.

(** X16: every task sensor of the main agent is indexed at 0 and 1 as the
    loop meets it, not only the last one: as soon as one of them holds
    fewer than two elements, [_get_single_state] raises [IndexError]. *)
Theorem single_state_needs_two_elements (e : Env) (n : string)
    (d : Dict.t ndarray) :
  _agent e = Some n ->
  Dict.get (_state_dict e) n = Some d ->
  NoDup (Dict.keys d) ->
  (exists s a, In (s, a) (task_sensors d)
               /\ (List.length (contents (shm e) a) < 2)%nat) ->
  _get_single_state e = (Raise IndexError, e).
Proof.
  intros Hmain Hd Hnd Hshort.
  unfold _get_single_state.
  assert (Hname : main_agent_name e = (Return n, e)).
  { unfold main_agent_name, bind, self. now rewrite Hmain. }
  rewrite (bind_return _ _ e e n) by exact Hname.
  rewrite (bind_return _ _ e e d) by now apply state_dict_getitem_found.
  apply bind_raise.
  exact (scan_sensors_short e n d Hd d None None (items_get d Hnd) Hshort).
Qed.

Lemma get_single_state_shape (e e' : Env) (r : retval) :
  _get_single_state e = (Return r, e') ->
  exists state reward terminal, r = RetSingle state reward terminal.
Proof.
  unfold _get_single_state, main_agent_name, state_dict_getitem.
  cbv beta iota delta [bind self ret raise].
  destruct (_agent e) as [n|]; [|discriminate].
  destruct (Dict.get (_state_dict e) n) as [d|]; [|discriminate].
  destruct (scan_sensors n (Dict.keys d) None None e) as [[rt|x] e2];
    [|discriminate].
  intros [= <- _]. eauto.
Qed.

(** X17: what each ticking method hands back.  [tick] and [set_state]
    return the full state mapping whatever the number of agents; [teleport]
    returns [None]; [step] returns the single-agent tuple exactly when the
    object has a main agent, and the full mapping when it has none. *)
Theorem shapes_of_returned_states (e e' : Env) (r : retval) :
  (tick e = (Return r, e') -> exists s, r = RetFull s)
  /\ (forall n l rot v w,
        set_state n l rot v w e = (Return r, e') -> exists s, r = RetFull s)
  /\ (forall n loc rot, teleport n loc rot e = (Return r, e') -> r = RetNone)
  /\ (forall action,
        step action e = (Return r, e') ->
        match _agent e with
        | Some _ => exists state reward terminal, r = RetSingle state reward terminal
        | None => exists s, r = RetFull s
        end).
Proof.
  assert (Htick : forall (e1 e2 : Env) r0,
            tick e1 = (Return r0, e2) -> exists s, r0 = RetFull s).
  { intros e1 e2 r0 Hrun. destruct (_initial_reset e1) eqn:Hready.
    - rewrite (tick_ready e1 Hready) in Hrun.
      destruct (engine_tick _ _) as [[g m]|]; [|discriminate].
      injection Hrun as <- _. eauto.
    - rewrite (tick_not_ready e1 Hready) in Hrun. discriminate. }
  split; [apply Htick|]. split; [|split].
  - intros n l rot v w Hrun. unfold set_state in Hrun.
    apply bind_inv in Hrun as (a & e1 & _ & Hrun).
    apply bind_inv in Hrun as (u & e2 & _ & Hrun).
    exact (Htick _ _ _ Hrun).
  - intros n loc rot Hrun. unfold teleport in Hrun.
    apply bind_inv in Hrun as (a & e1 & _ & Hrun).
    apply bind_inv in Hrun as (u & e2 & _ & Hrun).
    apply bind_inv in Hrun as (r1 & e3 & _ & Hrun).
    now injection Hrun as <- _.
  - intros action Hrun. destruct (_initial_reset e) eqn:Hready.
    + rewrite (step_ready action e Hready) in Hrun.
      destruct (_agent e) as [n|]; [|exact (Htick _ _ _ Hrun)].
      cbv zeta in Hrun. destruct (engine_tick _ _) as [[g m]|]; [|discriminate].
      exact (get_single_state_shape _ _ _ Hrun).
    + rewrite (step_not_ready action e Hready) in Hrun. discriminate.
Qed.

(** ** What [reset] returns *)

Lemma fit_length (size : nat) (data : list Q) :
  List.length (fit size data) = size.
Proof.
  unfold fit. rewrite length_firstn, length_app, repeat_length. lia.
Qed.

Lemma in_set {V : Type} (d : Dict.t V) (k k0 : string) (v v0 : V) :
  In (k0, v0) (Dict.set d k v) -> (k0, v0) = (k, v) \/ In (k0, v0) d.
Proof.
  induction d as [|[k' v'] d IH]; simpl.
  - intros [H|[]]. now left.
  - destruct (String.eqb_spec k k') as [->|Hne]; simpl.
    + intros [H|H]; [now left | right; now right].
    + intros [H|H]; [right; now left|].
      destruct (IH H) as [Heq|Hin]; [now left | right; now right].
Qed.

(** The state dict that [build_agent] makes: distinct sensor identifiers,
    each with the view of that sensor of the agent, of the sensor's shape. *)
Lemma built_state_dict (d : AgentDefinition) :
  NoDup (Dict.keys (agent_state_dict (build_agent d)))
  /\ forall s a,
       In (s, a) (agent_state_dict (build_agent d)) ->
       exists size, a = View (name d) s size /\ In (mkSensor s size) (sensors d).
Proof.
  cbn [build_agent agent_state_dict].
  set (f := fun sd s => Dict.set sd (sensor_name s)
                                 (View (name d) (sensor_name s) (sensor_size s))).
  assert (Hgen : forall l acc,
            incl l (sensors d) ->
            NoDup (Dict.keys acc)
            /\ (forall s a, In (s, a) acc ->
                  exists size, a = View (name d) s size
                               /\ In (mkSensor s size) (sensors d)) ->
            NoDup (Dict.keys (fold_left f l acc))
            /\ (forall s a, In (s, a) (fold_left f l acc) ->
                  exists size, a = View (name d) s size
                               /\ In (mkSensor s size) (sensors d))).
  { induction l as [|x l IH]; intros acc Hincl [Hnd Hin]; cbn [fold_left].
    - now split.
    - apply IH; [intros y Hy; apply Hincl; now right|].
      split; [now apply DictFacts.set_keeps_unique|].
      intros s a Hsa. apply in_set in Hsa as [Heq|Hsa]; [|now apply Hin].
      injection Heq as -> ->. exists (sensor_size x). split; [reflexivity|].
      destruct x as [xn xs]. apply Hincl. now left. }
  apply Hgen; [apply incl_refl|].
  split; [constructor | intros s a []].
Qed.

Lemma built_task_sensors_fit (d : AgentDefinition) (m : SharedMemory) :
  task_sensors_sized d ->
  forall s a,
    In (s, a) (task_sensors (agent_state_dict (build_agent d))) ->
    (2 <= List.length (contents m a))%nat.
Proof.
  intros Hsized s a Hin. unfold task_sensors in Hin.
  apply filter_In in Hin as [Hin Htask]. cbn [fst] in Htask.
  destruct (built_state_dict d) as [_ Hviews].
  destruct (Hviews s a Hin) as (size & -> & Hs).
  cbn [contents]. rewrite fit_length. exact (Hsized _ Hs Htask).
Qed.

Lemma get_single_state_runs (e : Env) (n : string) (d : Dict.t ndarray)
    (reward : option Q) (terminal : option bool) :
  _agent e = Some n ->
  Dict.get (_state_dict e) n = Some d ->
  scan_sensors n (Dict.keys d) None None e = (Return (reward, terminal), e) ->
  _get_single_state e
  = (Return (RetSingle (single_state_of e n d) reward terminal), e).
Proof.
  intros Hmain Hd Hscan. unfold _get_single_state.
  assert (Hname : main_agent_name e = (Return n, e)).
  { unfold main_agent_name, bind, self. now rewrite Hmain. }
  rewrite (bind_return _ _ e e n) by exact Hname.
  rewrite (bind_return _ _ e e d) by now apply state_dict_getitem_found.
  rewrite (bind_return _ _ e e (reward, terminal)) by exact Hscan.
  reflexivity.
Qed.

Lemma add_one_keeps_main (d d' : AgentDefinition) (e : Env) :
  main_agent_is d e -> main_agent_is d (add_one d' e).
Proof.
  intros [Hmain (a & Ha & Hsd)].
  destruct (add_one_keeps_entries d' e (name d)
              (DictFacts.get_some_mem _ _ _ Ha)) as (_ & Hget & _).
  split.
  - unfold add_one. now destruct (Dict.mem (name d') (agents e)).
  - exists a. rewrite Hget. now split.
Qed.

Lemma add_agents_keep_main (d : AgentDefinition) (defs : list AgentDefinition) :
  preserves (fun e : Env => main_agent_is d e) (_add_agents defs).
Proof.
  intros e He. rewrite add_agents_runs. cbn [snd]. revert e He.
  induction defs as [|d' defs IH]; intros e He; cbn [fold_left]; [exact He|].
  apply IH. now apply add_one_keeps_main.
Qed.

Lemma spawn_agent_keeps_main (d d' : AgentDefinition) (loc : list Q) :
  preserves (fun e : Env => main_agent_is d e) (spawn_agent d' loc).
Proof.
  intros e He. rewrite spawn_agent_runs. cbn [snd]. unfold spawned.
  pose proof (add_one_keeps_main d d' e He) as [Hmain Hentry]. cbv zeta.
  change (_agent (enqueued (SpawnAgentCommand loc (name d') (agent_type (type d')))
                           (add_one d' e)))
    with (_agent (add_one d' e)).
  rewrite Hmain. now split.
Qed.

Lemma agent_update_keeps_main (d : AgentDefinition) (n : string)
    (f : Agent -> Agent) :
  (forall a, agent_state_dict (f a) = agent_state_dict a) ->
  preserves (fun e : Env => main_agent_is d e) (Agent_update n f).
Proof.
  intros Hf e [Hmain (a & Ha & Hsd)]. unfold Agent_update, modify. cbn [snd].
  destruct (Dict.get (agents e) n) as [b|] eqn:Hb; [|split; eauto].
  split; [exact Hmain|]. cbn [agents with_agents].
  destruct (String.eqb_spec (name d) n) as [<-|Hne].
  - exists (f b). rewrite DictFacts.get_set_same. split; [reflexivity|].
    rewrite Hf. congruence.
  - exists a. rewrite DictFacts.get_set_other by exact Hne. now split.
Qed.

Ltac main_whole :=
  match goal with
  | |- preserves _ (_add_agents _) => apply add_agents_keep_main
  | |- preserves _ (spawn_agent _ _) => apply spawn_agent_keeps_main
  | |- preserves _ (Agent_set_ticks_per_capture _ _) =>
      apply agent_update_keeps_main; intros []; reflexivity
  | |- preserves _ (Agent_set_control_scheme _ _) =>
      apply agent_update_keeps_main; intros []; reflexivity
  end.

Ltac main_leaf :=
  cbv beta in *; unfold main_agent_is in *; cbn in *;
  repeat match goal with
         | |- context [match ?x with _ => _ end] => destruct x
         end;
  cbn in *; assumption.

Lemma tick_keeps_main (d : AgentDefinition) :
  preserves (fun e : Env => main_agent_is d e) tick.
Proof. unfold tick. walk; main_leaf. Qed.

Lemma step_keeps_main (d : AgentDefinition) (action : list Q) :
  preserves (fun e : Env => main_agent_is d e) (step action).
Proof. unfold step. walk; main_leaf. Qed.

Lemma run_keeps_main (d : AgentDefinition) (c : call) :
  preserves (fun e : Env => main_agent_is d e) (run c).
Proof.
  destruct c; cbn [run];
    try apply tick_keeps_main; try apply step_keeps_main;
    unfold reset;
    walk_with ltac:(first [ apply tick_keeps_main | main_whole ]);
    main_leaf.
Qed.

(** The constructor makes the agent of the first definition the main
    agent; without definitions it registers no agent. *)
Lemma init_main_agent (defs : list AgentDefinition) (pre : Z) (copy : bool)
    (client : HolodeckClient) (e0 : Env) :
  __init__ defs pre copy client = (Return tt, e0) ->
  match defs with
  | [] => agents e0 = []
  | d :: _ => main_agent_is d e0
  end.
Proof.
  unfold __init__. intros H.
  erewrite bind_return in H by apply add_agents_runs.
  match type of H with
  | context [fold_left ?f defs ?fresh] =>
      set (e := fresh) in *; set (ea := fold_left f defs e) in *
  end.
  cbv beta iota delta [bind self modify ret raise acquire agents_getitem] in H.
  cbn [num_agents with_num_agents agents] in H.
  destruct defs as [|d defs].
  - cbn in H. destruct (engine_tick _ _) as [[g m]|]; [|discriminate].
    injection H as <-. reflexivity.
  - assert (Hentry : Dict.get (agents ea) (name d) = Some (build_agent d)).
    { subst ea. cbn [fold_left].
      assert (Hreg : Dict.get (agents (add_one d e)) (name d)
                     = Some (build_agent d)) by (cbn; now rewrite String.eqb_refl).
      pose proof (add_agents_keep_entries defs (add_one d e) (name d)
                    (DictFacts.get_some_mem _ _ _ Hreg)) as [Hkeep _].
      rewrite add_agents_runs in Hkeep. cbn [snd] in Hkeep.
      now rewrite Hkeep. }
    destruct (0 <? Dict.len (agents ea))%nat eqn:Hpos.
    + cbn [agents with_num_agents] in H. rewrite Hentry in H.
      cbn in H. destruct (engine_tick _ _) as [[g m]|]; [|discriminate].
      injection H as <-. split; [reflexivity|].
      exists (build_agent d). cbn. now split.
    + apply Nat.ltb_ge in Hpos. unfold Dict.len in Hpos.
      destruct (agents ea); [discriminate | cbn in Hpos; lia].
Qed.

(** C3: on an environment built by the constructor, after any calls, with a
    simulator that answers and [pre_start_steps] at least -1, [reset] sets
    the reset flag (the simulator finds it true at the first settling tick),
    drops what was pending in the command queue (every batch flushed during
    the reset is empty), performs exactly [pre_start_steps + 1] ticks,
    applies the capture rate again for every agent with a camera (its
    command is in the queue afterwards, or its rate is reported invalid),
    and returns.  When the constructor registered exactly one agent, whose
    task sensors hold the two elements read from them, [reset] returns the
    tuple of [_get_single_state], the function [step] ends with, on the
    object it leaves: the state of the main agent with reward and terminal
    read from its last task sensor.  Otherwise it returns the full state
    mapping. *)
Theorem reset_settles_and_returns (defs : list AgentDefinition) (pre : Z)
    (copy : bool) (client : HolodeckClient) (e0 : Env) (cs : list call) :
  __init__ defs pre copy client = (Return tt, e0) ->
  always_answers ->
  (-1 <= pre)%Z ->
  (forall d, hd_error defs = Some d -> task_sensors_sized d) ->
  let e := run_all cs e0 in
  exists e' settling,
    snd (reset e) = e'
    /\ trace e' = trace e ++ settling ++ rate_warnings (agents e)
    /\ Z.of_nat (handshakes settling) = (pre + 1)%Z
    /\ flushed_batches settling = repeat [] (handshakes settling)
    /\ ((0 <= pre)%Z -> hd_error (reset_flags_seen settling) = Some true)
    /\ _command_center e' = camera_rate_commands (agents e)
    /\ agents e' = agents e
    /\ _initial_reset e' = true
    /\ if (Dict.len (agents e0) =? 1)%nat
       then exists main d reward terminal,
              _agent e' = Some main
              /\ Dict.get (_state_dict e') main = Some d
              /\ reset e
                 = (Return (RetSingle (single_state_of e' main d)
                                      reward terminal), e')
              /\ _get_single_state e'
                 = (Return (RetSingle (single_state_of e' main d)
                                      reward terminal), e')
              /\ match last_opt (task_sensors d) with
                 | None => reward = None /\ terminal = None
                 | Some (_, buffer) =>
                     exists r t,
                       nth_error (contents (shm e') buffer) 0 = Some r
                       /\ nth_error (contents (shm e') buffer) 1 = Some t
                       /\ reward = Some r
                       /\ terminal = Some (Qeq_bool t 1)
                 end
       else reset e = (Return (RetFull (full_state_of e')), e').
Proof.
  intros Hinit Hans Hpre Hsized e.
  assert (He0 : e0 = snd (__init__ defs pre copy client)) by now rewrite Hinit.
  assert (Hnd : names_unique e).
  { apply run_all_preserves; [apply run_keeps_names_unique|].
    rewrite He0. apply init_names_unique. }
  destruct (init_fixes_shape _ _ _ _ _ Hinit) as [Hnum Hfn0].
  assert (Hset : _pre_start_steps e = pre
                 /\ num_agents e = num_agents e0
                 /\ _default_state_fn e = _default_state_fn e0).
  { apply (run_all_preserves
             (fun e : Env => _pre_start_steps e = pre
                             /\ num_agents e = num_agents e0
                             /\ _default_state_fn e = _default_state_fn e0));
      [intros c; apply run_keeps_settings|].
    repeat split. rewrite He0. apply init_fixes_settings. }
  destruct Hset as (Hpre_e & _ & Hfn).
  destruct (ticks_from_answered (range (_pre_start_steps e + 1)) Hans
              (reset_started e)) as [e2 Hticks].
  destruct (reset_effect e e2 Hticks)
    as (Hq & Hags & Hsd & Hready & Hfn' & _ & settling & Htr & Hh & Hf & Hflag).
  destruct (ticks_from_frame _ _ _ _ Hticks) as (_ & _ & Hmain2 & _).
  assert (Hrun : reset e = default_state (reapplied (agents e2) e2)).
  { rewrite (reset_runs e (proj1 Hnd)). now rewrite Hticks. }
  set (e' := reapplied (agents e2) e2) in *.
  exists e', settling.
  split; [rewrite Hrun; apply default_state_read_only|].
  split; [exact Htr|].
  split; [rewrite Hh, Hpre_e; unfold range; lia|].
  split; [exact Hf|].
  split; [intros H0; apply Hflag; lia|].
  split; [exact Hq|]. split; [exact Hags|]. split; [exact Hready|].
  unfold default_state in Hrun. rewrite Hfn', Hfn, Hfn0 in Hrun.
  destruct (Dict.len (agents e0) =? 1)%nat eqn:Hone; [|exact Hrun].
  pose proof (init_main_agent _ _ _ _ _ Hinit) as Hmain0.
  destruct defs as [|d0 defs]; [now rewrite Hmain0 in Hone|].
  assert (Hmain : main_agent_is d0 e)
    by (apply run_all_preserves; [intros c; apply run_keeps_main | exact Hmain0]).
  assert (Hmir : mirrors e).
  { apply run_all_preserves; [apply run_keeps_mirrors|].
    rewrite He0. apply init_mirrors. }
  destruct Hmain as [Hagent (a & Ha & Hbuilt)].
  assert (Hagent' : _agent e' = Some (name d0)).
  { unfold e', reapplied. cbn. rewrite Hmain2. exact Hagent. }
  assert (Hd' : Dict.get (_state_dict e') (name d0)
                = Some (agent_state_dict (build_agent d0))).
  { rewrite Hsd, (proj1 Hmir), get_map_values, Ha. cbn. now rewrite Hbuilt. }
  destruct (built_state_dict d0) as [Hkeys _].
  destruct (scan_sensors_last e' (name d0) _ Hd' _ None None
              (items_get _ Hkeys)
              (built_task_sensors_fit d0 (shm e') (Hsized d0 eq_refl)))
    as (reward & terminal & Hscan & Hlast).
  pose proof (get_single_state_runs e' _ _ reward terminal Hagent' Hd' Hscan)
    as Hsingle.
  exists (name d0), (agent_state_dict (build_agent d0)), reward, terminal.
  split; [exact Hagent'|]. split; [exact Hd'|].
  split; [now rewrite Hrun|]. split; [exact Hsingle | exact Hlast].
Qed.

End Properties.

(** * The statements on concrete worlds *)

Lemma step_and_tick_before_reset_witness :
  let calls := [call_act "uav0" [1 # 1]; call_set_fog_density (1 # 2);
                call_teleport "uav0" None None] in
  __init__ (simulator := counting_engine) [uav0] 2 true (mkClient empty_memory O)
  = (Return tt, single_env true)
  /\ Forall (fun c => c <> call_reset) calls
  /\ let e := run_all (simulator := counting_engine) (str := str_of)
                      calls (single_env true) in
     (forall action,
        step (simulator := counting_engine) action e
        = (Raise (HolodeckException "You must call .reset() before .step()"), e))
     /\ tick (simulator := counting_engine) e
        = (Raise (HolodeckException "You must call .reset() before .tick()"), e).
Proof.
  intros calls.
  assert (Hinit : __init__ (simulator := counting_engine) [uav0] 2 true
                           (mkClient empty_memory O)
                  = (Return tt, single_env true)) by (vm_compute; reflexivity).
  assert (Hcalls : Forall (fun c => c <> call_reset) calls)
    by (repeat constructor; discriminate).
  split; [exact Hinit|]. split; [exact Hcalls|].
  exact (step_and_tick_before_reset (simulator := counting_engine)
           (str := str_of) [uav0] 2 true (mkClient empty_memory O)
           (single_env true) calls Hinit Hcalls).
Defined.

Lemma act_records_without_tick_witness :
  let e := ready_multi_env in
  (Dict.mem "ghost" (agents e) = false
   /\ act "ghost" [1 # 1] e = (Raise (KeyError "ghost"), e))
  /\ (Dict.mem "sphere0" (agents e) = true
      /\ exists e',
           act "sphere0" [1 # 1; 0 # 1] e = (Return tt, e')
           /\ Dict.get (action_buffers (shm e')) "sphere0" = Some [1 # 1; 0 # 1]
           /\ trace e' = trace e
           /\ _command_center e' = _command_center e
           /\ engine (_client e') = engine (_client e)
           /\ sensor_data (shm e') = sensor_data (shm e)
           /\ RESET (shm e') = RESET (shm e)
           /\ agents e' = agents e).
Proof.
  intros e.
  assert (Hghost : Dict.mem "ghost" (agents e) = false)
    by (vm_compute; reflexivity).
  assert (Hsphere : Dict.mem "sphere0" (agents e) = true)
    by (vm_compute; reflexivity).
  split; split; try assumption.
  - exact (proj1 (act_records_without_tick "ghost" [1 # 1] e) Hghost).
  - exact (proj2 (act_records_without_tick "sphere0" [1 # 1; 0 # 1] e) Hsphere).
Defined.

(** C4, where the code departs from it: on an initialized environment with
    the registered agent [uav0], [teleport] enqueues the override, flushes it
    in one tick with one handshake, and then returns [None]: the state of that
    tick is dropped.  [set_state] on the same object hands the state of its
    tick back. *)
Theorem teleport_discards_the_state :
  let e := ready_single_env true in
  let location := Some [1 # 1; 2 # 1; 3 # 1] in
  let teleported :=
    teleport (simulator := counting_engine) "uav0" location None e in
  let state_set :=
    set_state (simulator := counting_engine) "uav0"
              [1 # 1; 2 # 1; 3 # 1] [] [] [] e in
  _initial_reset e = true
  /\ Dict.mem "uav0" (agents e) = true
  /\ fst teleported = Return RetNone
  /\ trace (snd teleported)
     = trace e
       ++ [Flushed (_command_center e ++ [TeleportCommand "uav0" location None]);
           Released (flushed_memory
                       (enqueued (TeleportCommand "uav0" location None) e));
           Acquired]
  /\ match fst state_set with
     | Return r =>
         observe (snd state_set) r
         = ObsFull [("uav0", [("RGBCamera", [4 # 1; 4 # 1; 4 # 1]);
                              ("LocationSensor", [4 # 1; 0 # 1; 0 # 1]);
                              ("DistanceTask", [4 # 1; 1 # 1])])]
     | Raise _ => False
     end.
Proof. vm_compute. repeat split. Qed.



Lemma reset_settles_and_returns_witness :
  let client := mkClient empty_memory O in
  let e0 := single_env true in
  let cs := [call_set_fog_density (1 # 2); call_act "uav0" [1 # 1]] in
  __init__ (simulator := counting_engine) [uav0] 2 true client = (Return tt, e0)
  /\ always_answers (simulator := counting_engine)
  /\ (-1 <= 2)%Z
  /\ (forall d, hd_error [uav0] = Some d -> task_sensors_sized d)
  /\ let e := run_all (simulator := counting_engine) (str := str_of) cs e0 in
     exists e' settling,
       snd (reset (simulator := counting_engine) (str := str_of) e) = e'
       /\ trace e' = trace e ++ settling ++ rate_warnings (str := str_of) (agents e)
       /\ Z.of_nat (handshakes settling) = (2 + 1)%Z
       /\ flushed_batches settling = repeat [] (handshakes settling)
       /\ ((0 <= 2)%Z -> hd_error (reset_flags_seen settling) = Some true)
       /\ _command_center e' = camera_rate_commands (agents e)
       /\ agents e' = agents e
       /\ _initial_reset e' = true
       /\ if (Dict.len (agents e0) =? 1)%nat
          then exists main d reward terminal,
                 _agent e' = Some main
                 /\ Dict.get (_state_dict e') main = Some d
                 /\ reset (simulator := counting_engine) (str := str_of) e
                    = (Return (RetSingle (single_state_of e' main d)
                                         reward terminal), e')
                 /\ _get_single_state e'
                    = (Return (RetSingle (single_state_of e' main d)
                                         reward terminal), e')
                 /\ match last_opt (task_sensors d) with
                    | None => reward = None /\ terminal = None
                    | Some (_, buffer) =>
                        exists r t,
                          nth_error (contents (shm e') buffer) 0 = Some r
                          /\ nth_error (contents (shm e') buffer) 1 = Some t
                          /\ reward = Some r
                          /\ terminal = Some (Qeq_bool t 1)
                    end
          else reset (simulator := counting_engine) (str := str_of) e
               = (Return (RetFull (full_state_of e')), e').
Proof.
  intros client e0 cs.
  assert (Hinit : __init__ (simulator := counting_engine) [uav0] 2 true client
                  = (Return tt, e0)) by (vm_compute; reflexivity).
  assert (Hans : always_answers (simulator := counting_engine))
    by (intros g m; discriminate).
  assert (Hpre : (-1 <= 2)%Z) by lia.
  assert (Hsized : forall d, hd_error [uav0] = Some d -> task_sensors_sized d).
  { intros d [= <-] s [<-|[<-|[<-|[]]]] Htask; vm_compute in Htask;
      try discriminate. cbn. lia. }
  split; [exact Hinit|]. split; [exact Hans|]. split; [exact Hpre|].
  split; [exact Hsized|].
  exact (reset_settles_and_returns (simulator := counting_engine)
           (str := str_of) [uav0] 2 true client e0 cs Hinit Hans Hpre Hsized).
Defined.

Lemma single_state_reads_last_task_sensor_witness :
  let e := ready_single_env true in
  _agent e = Some "uav0"
  /\ Dict.get (_state_dict e) "uav0" = Some uav0_state_dict
  /\ NoDup (Dict.keys uav0_state_dict)
  /\ (forall s a, In (s, a) (task_sensors uav0_state_dict) ->
                  (2 <= List.length (contents (shm e) a))%nat)
  /\ exists state reward terminal,
       _get_single_state e = (Return (RetSingle state reward terminal), e)
       /\ match last_opt (task_sensors uav0_state_dict) with
          | None => reward = None /\ terminal = None
          | Some (_, buffer) =>
              exists r t,
                nth_error (contents (shm e) buffer) 0 = Some r
                /\ nth_error (contents (shm e) buffer) 1 = Some t
                /\ reward = Some r
                /\ terminal = Some (Qeq_bool t 1)
          end.
Proof.
  intros e.
  assert (Hmain : _agent e = Some "uav0") by (vm_compute; reflexivity).
  assert (Hd : Dict.get (_state_dict e) "uav0" = Some uav0_state_dict)
    by (vm_compute; reflexivity).
  assert (Hnd : NoDup (Dict.keys uav0_state_dict)).
  { repeat constructor; simpl; intuition discriminate. }
  assert (Hlen : forall s a, In (s, a) (task_sensors uav0_state_dict) ->
                             (2 <= List.length (contents (shm e) a))%nat).
  { intros s a [Hin|[]]. injection Hin as <- <-. vm_compute. lia. }
  split; [exact Hmain|]. split; [exact Hd|]. split; [exact Hnd|].
  split; [exact Hlen|].
  exact (single_state_reads_last_task_sensor e "uav0" uav0_state_dict
           Hmain Hd Hnd Hlen).
Defined.


Lemma agent_names_stay_unique_witness :
  let e := ready_multi_env in
  Dict.mem (name uav0_again) (agents e) = true
  /\ _add_agents [uav0_again] e = (Return tt, printed duplicate_message e)
  /\ exists e',
       spawn_agent uav0_again [0 # 1; 0 # 1; 0 # 1] e = (Return tt, e')
       /\ agents e' = agents e
       /\ _state_dict e' = _state_dict e
       /\ trace e' = trace e ++ [Printed duplicate_message]
       /\ _command_center e'
          = _command_center e
            ++ [SpawnAgentCommand [0 # 1; 0 # 1; 0 # 1] (name uav0_again)
                                  (agent_type (type uav0_again))].
Proof.
  intros e.
  assert (Hdup : Dict.mem (name uav0_again) (agents e) = true)
    by (vm_compute; reflexivity).
  split; [exact Hdup|].
  pose proof (agent_names_stay_unique (simulator := counting_engine)
                (str := str_of)) as (_ & _ & _ & Hadd & Hspawn).
  split; [exact (Hadd uav0_again e Hdup)|].
  exact (Hspawn uav0_again [0 # 1; 0 # 1; 0 # 1] e Hdup).
Defined.

Lemma set_weather_ignores_case_witness :
  let e := ready_multi_env in
  (str_lower "RAIN" = "rain" \/ str_lower "RAIN" = "cloudy")
  /\ set_weather "RAIN" e
     = (Return tt, enqueued (CustomCommand "SetWeather" [] ["RAIN"]) e)
  /\ (str_lower "Snow" <> "rain" /\ str_lower "Snow" <> "cloudy")
  /\ set_weather "Snow" e
     = (Raise (HolodeckException ("Invalid weather type " ++ "Snow")), e).
Proof.
  intros e.
  assert (Hrain : str_lower "RAIN" = "rain" \/ str_lower "RAIN" = "cloudy")
    by (left; reflexivity).
  assert (Hsnow : str_lower "Snow" <> "rain" /\ str_lower "Snow" <> "cloudy")
    by (split; discriminate).
  split; [exact Hrain|].
  split; [exact (proj1 (set_weather_ignores_case "RAIN" e) Hrain)|].
  split; [exact Hsnow|].
  exact (proj1 (proj2 (set_weather_ignores_case "Snow" e)) Hsnow).
Defined.

Lemma set_ticks_per_capture_outcomes_witness :
  let e := ready_multi_env in
  valid_rate (PyInt 5) = true
  /\ Dict.get (agents e) "uav0" = Some (build_agent uav0)
  /\ set_ticks_per_capture (str := str_of) "uav0" (PyInt 5) e
     = (Return tt,
        enqueued (RGBCameraRateCommand "uav0" (PyInt 5))
          (with_agents
             (Dict.set (agents e) "uav0"
                (with_ticks_per_capture (PyInt 5) (build_agent uav0))) e))
  /\ valid_rate (PyFloat "2.5") = false
  /\ set_ticks_per_capture (str := str_of) "ghost" (PyFloat "2.5") e
     = (Return tt, printed (invalid_rate_message (str := str_of) (PyFloat "2.5")) e).
Proof.
  intros e.
  assert (Hv : valid_rate (PyInt 5) = true) by reflexivity.
  assert (Ha : Dict.get (agents e) "uav0" = Some (build_agent uav0))
    by (vm_compute; reflexivity).
  assert (Hf : valid_rate (PyFloat "2.5") = false) by reflexivity.
  split; [exact Hv|]. split; [exact Ha|].
  split; [exact (proj1 (set_ticks_per_capture_outcomes (str := str_of)
                          "uav0" (PyInt 5) e) Hv _ Ha)|].
  split; [exact Hf|].
  exact (proj2 (proj2 (set_ticks_per_capture_outcomes (str := str_of)
                         "ghost" (PyFloat "2.5") e)) Hf).
Defined.

Lemma step_is_act_then_tick_witness :
  let e := ready_single_env true in
  _initial_reset e = true
  /\ (forall n, _agent e = Some n -> Dict.mem n (agents e) = true ->
        exists e1,
          act n [1 # 1] e = (Return tt, e1)
          /\ snd (step (simulator := counting_engine) [1 # 1] e)
             = snd (tick (simulator := counting_engine) e1)
          /\ (forall r e2, tick (simulator := counting_engine) e1 = (Return r, e2) ->
                step (simulator := counting_engine) [1 # 1] e
                = _get_single_state e2))
  /\ (_agent e = None ->
      step (simulator := counting_engine) [1 # 1] e
      = tick (simulator := counting_engine) e).
Proof.
  intros e.
  assert (Hready : _initial_reset e = true) by (vm_compute; reflexivity).
  split; [exact Hready|].
  exact (step_is_act_then_tick (simulator := counting_engine) [1 # 1] e Hready).
Defined.

Lemma override_on_missing_agent_or_too_early_witness :
  let e := single_env true in
  Dict.mem "ghost" (agents e) = false
  /\ teleport (simulator := counting_engine) "ghost" None None e
     = (Raise (KeyError "ghost"), e)
  /\ Dict.mem "uav0" (agents e) = true
  /\ _initial_reset e = false
  /\ teleport (simulator := counting_engine) "uav0" (Some [1 # 1]) None e
     = (Raise (HolodeckException "You must call .reset() before .tick()"),
        enqueued (TeleportCommand "uav0" (Some [1 # 1]) None) e).
Proof.
  intros e.
  assert (Hghost : Dict.mem "ghost" (agents e) = false) by (vm_compute; reflexivity).
  assert (Huav : Dict.mem "uav0" (agents e) = true) by (vm_compute; reflexivity).
  assert (Hearly : _initial_reset e = false) by (vm_compute; reflexivity).
  split; [exact Hghost|].
  split; [exact (proj1 (proj1 (override_on_missing_agent_or_too_early
                                 (simulator := counting_engine)
                                 "ghost" None None [] [] [] [] e) Hghost))|].
  split; [exact Huav|]. split; [exact Hearly|].
  exact (proj1 (proj2 (override_on_missing_agent_or_too_early
                         (simulator := counting_engine)
                         "uav0" (Some [1 # 1]) None [] [] [] [] e) Huav Hearly)).
Defined.

Lemma pending_commands_reach_the_next_tick_witness :
  let e := ready_multi_env in
  let cs := [call_draw_point [1 # 1; 2 # 1; 3 # 1] None (10 # 1);
             call_set_fog_density (1 # 2);
             call_set_fog_density (3 # 2);
             call_spawn_agent uav0_again [0 # 1; 0 # 1; 0 # 1]] in
  Forall (fun c => ~ is_ticking c) cs
  /\ _initial_reset e = true
  /\ let e1 := run_all (simulator := counting_engine) (str := str_of) cs e in
     (exists ks,
        _command_center e1 = _command_center e ++ ks
        /\ (List.length ks <= List.length cs)%nat)
     /\ flushed_batches (trace e1) = flushed_batches (trace e)
     /\ forall r e2,
          tick (simulator := counting_engine) e1 = (Return r, e2) ->
          flushed_batches (trace e2)
          = flushed_batches (trace e) ++ [_command_center e1]
          /\ _command_center e2 = [].
Proof.
  intros e cs.
  assert (Hcs : Forall (fun c => ~ is_ticking c) cs)
    by (repeat constructor; intros []).
  assert (Hready : _initial_reset e = true) by (vm_compute; reflexivity).
  split; [exact Hcs|]. split; [exact Hready|].
  exact (pending_commands_reach_the_next_tick (simulator := counting_engine)
           (str := str_of) cs e Hcs Hready).
Defined.

Lemma handshake_alternates_witness :
  let client := mkClient empty_memory O in
  let cs := [call_tick; call_reset; call_step [1 # 1];
             call_teleport "uav0" None None; call_set_fog_density (1 # 2)] in
  always_answers (simulator := counting_engine)
  /\ __init__ (simulator := counting_engine) [uav0] 2 true client
     = (Return tt, single_env true)
  /\ protocol EngineTurn
       (trace (run_all (simulator := counting_engine) (str := str_of) cs
                       (single_env true)))
     = Some ControllerTurn.
Proof.
  intros client cs.
  assert (Hans : always_answers (simulator := counting_engine))
    by (intros g m; discriminate).
  assert (Hinit : __init__ (simulator := counting_engine) [uav0] 2 true client
                  = (Return tt, single_env true)) by (vm_compute; reflexivity).
  split; [exact Hans|]. split; [exact Hinit|].
  exact (handshake_alternates (simulator := counting_engine) (str := str_of)
           [uav0] 2 true client (single_env true) cs Hans Hinit).
Defined.

Lemma spawn_agent_registers_witness :
  let e := ready_single_env true in
  let loc := [0 # 1; 0 # 1; 1 # 1] in
  Dict.mem (name sphere0) (agents e) = false
  /\ exists e',
       spawn_agent sphere0 loc e = (Return tt, e')
       /\ agents e' = agents e ++ [(name sphere0, build_agent sphere0)]
       /\ Dict.get (_state_dict e') (name sphere0)
          = Some (agent_state_dict (build_agent sphere0))
       /\ _command_center e'
          = _command_center e
            ++ [SpawnAgentCommand loc (name sphere0) (agent_type (type sphere0))]
       /\ _agent e' = match _agent e with
                      | Some main => Some main
                      | None => Some (name sphere0)
                      end
       /\ num_agents e' = num_agents e
       /\ _default_state_fn e' = _default_state_fn e
       /\ trace e' = trace e
       /\ _client e' = _client e.
Proof.
  intros e loc.
  assert (Hfree : Dict.mem (name sphere0) (agents e) = false)
    by (vm_compute; reflexivity).
  split; [exact Hfree|].
  exact (spawn_agent_registers sphere0 loc e Hfree).
Defined.

Lemma tick_returns_a_snapshot_witness :
  let e := ready_single_env true in
  let later := snd (step (simulator := counting_engine) [1 # 1] ticked_env) in
  _copy_state e = true
  /\ NoDup (Dict.keys (_state_dict e))
  /\ (forall n d, In (n, d) (_state_dict e) -> NoDup (Dict.keys d))
  /\ tick (simulator := counting_engine) e = (Return ticked_state, ticked_env)
  /\ observe later ticked_state
     = ObsFull (observe_all (shm ticked_env) (_state_dict ticked_env)).
Proof.
  intros e later.
  assert (Hcopy : _copy_state e = true) by (vm_compute; reflexivity).
  assert (Hnd : NoDup (Dict.keys (_state_dict e))).
  { vm_compute. repeat constructor. simpl. tauto. }
  assert (Hin : forall n d, In (n, d) (_state_dict e) -> NoDup (Dict.keys d)).
  { intros n d Hd. vm_compute in Hd. destruct Hd as [Hd|[]].
    injection Hd as _ <-. repeat constructor; simpl; intuition discriminate. }
  assert (Hrun : tick (simulator := counting_engine) e
                 = (Return ticked_state, ticked_env)) by (vm_compute; reflexivity).
  split; [exact Hcopy|]. split; [exact Hnd|]. split; [exact Hin|].
  split; [exact Hrun|].
  exact (tick_returns_a_snapshot (simulator := counting_engine) e ticked_env
           later ticked_state Hcopy Hnd Hin Hrun).
Defined.

Lemma init_registers_each_name_once_witness :
  let defs := [uav0; sphere0; uav0_again] in
  always_answers (simulator := counting_engine)
  /\ exists e0,
       __init__ (simulator := counting_engine) defs 2 true (mkClient empty_memory O)
       = (Return tt, e0)
       /\ Dict.keys (agents e0) = first_names [] defs
       /\ num_agents e0 = List.length (first_names [] defs)
       /\ _agent e0 = option_map name (hd_error defs)
       /\ trace e0
          = repeat (Printed duplicate_message)
                   (List.length defs - List.length (first_names [] defs))
            ++ [Acquired]
       /\ _command_center e0 = []
       /\ _initial_reset e0 = false.
Proof.
  intros defs.
  assert (Hans : always_answers (simulator := counting_engine))
    by (intros g m; discriminate).
  split; [exact Hans|].
  exact (init_registers_each_name_once (simulator := counting_engine)
           defs 2 true (mkClient empty_memory O) Hans).
Defined.

Lemma reference_state_is_live_witness :
  let e := ready_single_env false in
  let e' := ticked_reference_env in
  let loc := [0 # 1; 0 # 1; 1 # 1] in
  _copy_state e = false
  /\ tick (simulator := counting_engine) e = (Return (RetFull SharedStateDict), e')
  /\ observe e (RetFull SharedStateDict)
     = ObsFull (observe_all (shm e) (_state_dict e))
  /\ (Dict.mem (name sphere0) (agents e') = false ->
      exists sensors_now,
        observe (snd (spawn_agent sphere0 loc e')) (RetFull SharedStateDict)
        = ObsFull sensors_now
        /\ Dict.get sensors_now (name sphere0)
           = Some (observe_agent (shm e') (agent_state_dict (build_agent sphere0)))).
Proof.
  intros e e' loc.
  assert (Hcopy : _copy_state e = false) by (vm_compute; reflexivity).
  assert (Hrun : tick (simulator := counting_engine) e
                 = (Return (RetFull SharedStateDict), e'))
    by (vm_compute; reflexivity).
  split; [exact Hcopy|]. split; [exact Hrun|].
  exact (proj2 (reference_state_is_live (simulator := counting_engine) e e' e
                  (RetFull SharedStateDict) sphere0 loc Hcopy Hrun)).
Defined.

Lemma reset_without_settling_tick_witness :
  let e := hasty_env in
  (_pre_start_steps e <= -1)%Z
  /\ NoDup (Dict.keys (agents e))
  /\ let e' := reapplied (str := str_of) (agents e) (reset_started e) in
     reset (simulator := counting_engine) (str := str_of) e = default_state e'
     /\ trace e' = trace e ++ rate_warnings (str := str_of) (agents e)
     /\ _command_center e' = camera_rate_commands (agents e)
     /\ RESET (shm e') = true
     /\ engine (_client e') = engine (_client e).
Proof.
  intros e.
  assert (Hpre : (_pre_start_steps e <= -1)%Z) by (vm_compute; discriminate).
  assert (Hnd : NoDup (Dict.keys (agents e))).
  { vm_compute. repeat constructor. simpl. tauto. }
  split; [exact Hpre|]. split; [exact Hnd|].
  exact (reset_without_settling_tick (simulator := counting_engine)
           (str := str_of) e Hpre Hnd).
Defined.

Lemma single_state_needs_two_elements_witness :
  let e := rover_env in
  let timer := View "rover0" "TaskTimer" 1 in
  let task := View "rover0" "DistanceTask" 2 in
  _agent e = Some "rover0"
  /\ Dict.get (_state_dict e) "rover0" = Some rover0_state_dict
  /\ NoDup (Dict.keys rover0_state_dict)
  /\ task_sensors rover0_state_dict = [("TaskTimer", timer); ("DistanceTask", task)]
  /\ contents (shm e) timer = [3 # 1]
  /\ contents (shm e) task = [3 # 1; 0 # 1]
  /\ (exists s a, In (s, a) (task_sensors rover0_state_dict)
                  /\ (List.length (contents (shm e) a) < 2)%nat)
  /\ _get_single_state e = (Raise IndexError, e).
Proof.
  intros e timer task.
  assert (Hmain : _agent e = Some "rover0") by (vm_compute; reflexivity).
  assert (Hd : Dict.get (_state_dict e) "rover0" = Some rover0_state_dict)
    by (vm_compute; reflexivity).
  assert (Hnd : NoDup (Dict.keys rover0_state_dict)).
  { repeat constructor; simpl; intuition discriminate. }
  assert (Hshort : exists s a, In (s, a) (task_sensors rover0_state_dict)
                               /\ (List.length (contents (shm e) a) < 2)%nat).
  { exists "TaskTimer", timer. split; [now left | vm_compute; lia]. }
  split; [exact Hmain|]. split; [exact Hd|]. split; [exact Hnd|].
  split; [reflexivity|].
  split; [vm_compute; reflexivity|]. split; [vm_compute; reflexivity|].
  split; [exact Hshort|].
  exact (single_state_needs_two_elements e "rover0" rover0_state_dict
           Hmain Hd Hnd Hshort).
Defined.
